(** * SEO content analyzer: the text analyzer and the content extractor

    A shallow embedding of [analyze_content] and [get_clean_content] of
    [main.py].  Python values are modelled as follows.

    - A [str] is the list of its Unicode code points.
    - [str.lower], [str.strip] and the regular-expression class [\w] consult
      CPython's Unicode tables.  They are the fields of the class [Unicode],
      and every general theorem holds for all tables.  [basic_latin] gives
      the tables on U+0000..U+007F and on U+0130; it is used for the concrete
      examples, and [ascii_tables] says of any tables that they agree with it
      on ASCII text.
    - An [int] that counts something is a [nat].
    - The density is given by its exact value, the rational
      [instances / word_count * 100]; what is displayed is computed from the
      double Python holds for it, the quotient and the product each rounded
      to binary64 ([density_double]).  The progress bar is given the double
      of its quotient ([binary64]).
    - A call that can raise returns an [outcome].
    - The parsed page is a tree of tags and strings; the browser and the
      parser are a function that returns a page or raises. *)

From Stdlib Require Import String Ascii.
From Stdlib Require Import List NArith ZArith QArith Qround Bool Lia.
From Stdlib Require Import Numbers.DecimalString.
Import ListNotations.

Local Open Scope nat_scope.
Local Open Scope list_scope.

(** ** Strings *)

Definition char := N.
Definition str := list char.

(** A string literal of the source, as code points. *)
Definition lit (s : string) : str := map N_of_ascii (list_ascii_of_string s).

Definition char_eqb (a b : char) : bool := N.eqb a b.

Fixpoint str_eqb (a b : str) : bool :=
  match a, b with
  | [], [] => true
  | x :: a', y :: b' => char_eqb x y && str_eqb a' b'
  | _, _ => false
  end.

(** [name in [...]] for a list of strings. *)
Definition str_in (x : str) (l : list str) : bool := existsb (str_eqb x) l.

(** [s.startswith(sub)]. *)
Fixpoint startswith (s sub : str) : bool :=
  match sub, s with
  | [], _ => true
  | a :: sub', c :: s' => char_eqb a c && startswith s' sub'
  | _ :: _, [] => false
  end.

(** [sub in s] for two strings. *)
Fixpoint contains (s sub : str) : bool :=
  startswith s sub ||
  match s with
  | [] => false
  | _ :: s' => contains s' sub
  end.

(** [s.count(sub)] for a non-empty [sub]: occurrences are counted from the
    left and do not overlap; [skip] is the number of characters of the last
    occurrence that still lie ahead. *)
Fixpoint count_from (sub s : str) (skip : nat) : nat :=
  match s with
  | [] => 0
  | _ :: s' =>
      match skip with
      | S k => count_from sub s' k
      | O => if startswith s sub
             then S (count_from sub s' (length sub - 1))
             else count_from sub s' 0
      end
  end.

(** [s.count(sub)]; the empty string occurs between any two characters and at
    both ends. *)
Definition count (s sub : str) : nat :=
  match sub with
  | [] => S (length s)
  | _ :: _ => count_from sub s 0
  end.

(** [sep.join(parts)]. *)
Fixpoint join (sep : str) (parts : list str) : str :=
  match parts with
  | [] => []
  | [p] => p
  | p :: rest => p ++ sep ++ join sep rest
  end.

(** ** The Unicode tables *)

Class Unicode := {
  (** [str.lower] *)
  str_lower : str -> str;
  str_lower_empty : str_lower [] = [];
  (** the characters [str.strip] removes *)
  isspace : char -> bool;
  (** the characters [\w] matches in a [str] pattern *)
  isword : char -> bool
}.

(** ** Exceptions *)

Inductive exn :=
| ZeroDivisionError
| Exception (msg : str).

Inductive outcome (A : Type) :=
| Returns (a : A)
| Raises (e : exn).
Arguments Returns {A} a.
Arguments Raises {A} e.

Definition bind {A B} (m : outcome A) (k : A -> outcome B) : outcome B :=
  match m with
  | Returns a => k a
  | Raises e => Raises e
  end.

Notation "x <- m ;; k" := (bind m (fun x => k))
  (at level 61, m at next level, right associativity).

(** ** Regular expressions: [re.findall] for the two patterns of the source *)

Section Findall.
(** [match_at prev s] is the length of the match of the pattern at the
    position where [s] starts and [prev] is the character before it, 0 when
    the pattern does not match there.  Neither pattern of the source matches
    the empty string. *)
Variable match_at : option char -> str -> nat.

(** The scan of [re.findall]: try the pattern at every position from the
    left; after a match resume at its end.  [skip] counts the characters of
    the last match that still lie ahead. *)
Fixpoint scan (prev : option char) (s : str) (skip : nat) : list str :=
  match s with
  | [] => []
  | c :: s' =>
      match skip with
      | S k => scan (Some c) s' k
      | O =>
          match match_at prev s with
          | O => scan (Some c) s' 0
          | S k => firstn (S k) s :: scan (Some c) s' k
          end
      end
  end.

Definition findall (s : str) : list str := scan None s 0.
End Findall.

Fixpoint run_length (p : char -> bool) (s : str) : nat :=
  match s with
  | c :: s' => if p c then S (run_length p s') else 0
  | [] => 0
  end.

(** [[.!?]]: 46 is the full stop, 33 the exclamation mark, 63 the question
    mark. *)
Definition is_terminator (c : char) : bool :=
  char_eqb c 46%N || char_eqb c 33%N || char_eqb c 63%N.

(** [[.!?]+] is greedy: it takes the whole run. *)
Definition match_terminators (_ : option char) (s : str) : nat :=
  run_length is_terminator s.

Section Analyzer.
Context {U : Unicode}.

Fixpoint lstrip (s : str) : str :=
  match s with
  | [] => []
  | c :: s' => if isspace c then lstrip s' else s
  end.

Definition rstrip (s : str) : str := rev (lstrip (rev s)).

(** [s.strip()] *)
Definition strip (s : str) : str := rstrip (lstrip s).

(** [[\w'-]]: 39 is the apostrophe, 45 the hyphen. *)
Definition in_word_class (c : char) : bool :=
  isword c || char_eqb c 39%N || char_eqb c 45%N.

Definition isword_at (o : option char) : bool :=
  match o with
  | Some c => isword c
  | None => false
  end.

(** [\b] between [prev] and [next]; [None] is an end of the text. *)
Definition boundary (prev next : option char) : bool :=
  xorb (isword_at prev) (isword_at next).

(** [[\w'-]*\b] after the character [prev], greedy with backtracking: the
    largest number of further class characters after which there is a word
    boundary, [None] when no end position is one. *)
Fixpoint word_tail (prev : char) (s : str) : option nat :=
  match s with
  | [] => if boundary (Some prev) None then Some 0 else None
  | c :: s' =>
      match (if in_word_class c then word_tail c s' else None) with
      | Some k => Some (S k)
      | None => if boundary (Some prev) (Some c) then Some 0 else None
      end
  end.

(** [\b[\w'-]+\b] at one position. *)
Definition match_word (prev : option char) (s : str) : nat :=
  match s with
  | [] => 0
  | c :: s' =>
      if boundary prev (Some c) && in_word_class c
      then match word_tail c s' with
           | Some k => S k
           | None => 0
           end
      else 0
  end.

End Analyzer.

(** ** The density and its display *)

(** [a / b] on two ints, by its exact value; the double that stands for it
    is [binary64] of that value. *)
Definition truediv (a b : nat) : outcome Q :=
  match b with
  | O => Raises ZeroDivisionError
  | S _ => Returns (Z.of_nat a # Pos.of_nat b)
  end.

(** [(instances / word_count * 100) if word_count > 0 else 0] *)
Definition density (instances word_count : nat) : outcome Q :=
  if 0 <? word_count
  then q <- truediv instances word_count ;; Returns (q * 100)%Q
  else Returns 0%Q.

(** Rounding to the nearest integer, ties to the even one. *)
Definition round_half_even (q : Q) : Z :=
  let n := Qnum q in
  let d := Zpos (Qden q) in
  let fl := (n / d)%Z in
  match (2 * (n mod d) ?= d)%Z with
  | Lt => fl
  | Gt => (fl + 1)%Z
  | Eq => if Z.even fl then fl else (fl + 1)%Z
  end.

Definition digits (n : Z) : str :=
  lit (NilZero.string_of_uint (N.to_uint (Z.to_N n))).

(** *** Doubles

    A double is modelled by the rational it stands for.  [binary64 q] is the
    double nearest to [q], ties to the even significand of 53 bits.  The
    exponent is not bounded: the counts of the program are below 2^63 (the
    largest [len]), which keeps every quotient and product of the program
    within the normal doubles. *)

(** For positive [n] and [d], the [l] with [2^l <= n / d < 2^(l+1)]. *)
Definition floor_log2 (n d : Z) : Z :=
  let l := (Z.log2 n - Z.log2 d)%Z in
  if (0 <=? l)%Z
  then (if (n <? d * 2 ^ l)%Z then l - 1 else l)%Z
  else (if (n * 2 ^ (- l) <? d)%Z then l - 1 else l)%Z.

(** [q * 2^e] *)
Definition scale2 (q : Q) (e : Z) : Q :=
  if (0 <=? e)%Z
  then (Qnum q * 2 ^ e # Qden q)
  else (Qnum q # Qden q * Z.to_pos (2 ^ (- e))).

Definition binary64 (q : Q) : Q :=
  let n := Qnum q in
  if (n =? 0)%Z then 0
  else
    let a := Z.abs n in
    let e := (floor_log2 a (Zpos (Qden q)) - 52)%Z in
    let m := round_half_even (scale2 (a # Qden q) (- e)) in
    scale2 (inject_Z (Z.sgn n * m)) e.

(** The double the variable [density] holds when the exact value of
    [instances / word_count * 100] is [q]: the quotient is rounded to a
    double, and so is its product with 100.  ([q / 100] is the exact
    quotient again; for the [0] of the guard the double is 0.) *)
Definition density_double (q : Q) : Q :=
  binary64 (binary64 (q / 100) * 100).

(** [f"{density:.2f}"], where [q] is the exact value of the density: the
    double held is shown with two decimals, its exact value rounded to the
    nearest hundredth, ties to even.  The density is never negative. *)
Definition format_2f (q : Q) : str :=
  let h := round_half_even (density_double q * 100) in
  let a := Z.abs h in
  (if (h <? 0)%Z then lit "-" else []) ++
  digits (a / 100) ++ lit "." ++
  [(48 + Z.to_N ((a mod 100) / 10))%N; (48 + Z.to_N ((a mod 100) mod 10))%N].

(** ** [analyze_content] *)

(** One row of the keyword table: the dict with the keys ["Keyword"],
    ["Instances"] and ["Density (%)"]. *)
Record KeywordRecord := {
  Keyword : str;
  Instances : nat;
  Density : str
}.

Section AnalyzeContent.
Context {U : Unicode}.

(** The words of the text: [re.findall(r'\b[\w\'-]+\b', content)]. *)
Definition words (content : str) : list str := findall match_word content.

(** [len(re.findall(r'[.!?]+', content))] *)
Definition sentences (content : str) : list str :=
  findall match_terminators content.

(** [content.lower().count(keyword.strip().lower())] *)
Definition keyword_instances (content keyword : str) : nat :=
  let kw := str_lower (strip keyword) in
  count (str_lower content) kw.

(** The body of the loop over the keywords: it appends one row to
    [results]. *)
Definition keyword_step (content : str) (word_count : nat)
    (results : list KeywordRecord) (keyword : str)
    : outcome (list KeywordRecord) :=
  let instances := keyword_instances content keyword in
  d <- density instances word_count ;;
  Returns (results ++ [ {| Keyword := keyword;
                           Instances := instances;
                           Density := format_2f d ++ lit "%" |} ]).

(** [for keyword in keywords: ...] *)
Fixpoint for_keywords (content : str) (word_count : nat)
    (keywords : list str) (results : list KeywordRecord)
    : outcome (list KeywordRecord) :=
  match keywords with
  | [] => Returns results
  | keyword :: rest =>
      results' <- keyword_step content word_count results keyword ;;
      for_keywords content word_count rest results'
  end.

Definition analyze_content (content : str) (keywords : list str)
    : outcome (nat * nat * list KeywordRecord) :=
  match content with
  | [] => Returns (0, 0, [])
  | _ :: _ =>
      let word_count := length (words content) in
      let sentence_count := length (sentences content) in
      results <- for_keywords content word_count keywords [] ;;
      Returns (word_count, sentence_count, results)
  end.
End AnalyzeContent.

(** ** The tables on U+0000..U+007F and U+0130

    [str.lower] maps A..Z to a..z and U+0130 (capital I with dot above) to the
    two code points U+0069 U+0307; [str.strip] removes the characters 9..13,
    28..32; [\w] matches the digits, the letters and the underscore.  Every
    other code point is left as it is and is neither a space nor a word
    character: the tables are meant for texts over the code points above. *)
Module BasicLatin.
Definition between (lo hi c : char) : bool := (lo <=? c)%N && (c <=? hi)%N.

Definition lower_char (c : char) : str :=
  if between 65%N 90%N c then [(c + 32)%N]
  else if char_eqb c 304%N then [105%N; 775%N]
  else [c].

Definition lower (s : str) : str := flat_map lower_char s.

Definition space (c : char) : bool := between 9%N 13%N c || between 28%N 32%N c.

Definition word_char (c : char) : bool :=
  between 48%N 57%N c || between 65%N 90%N c || between 97%N 122%N c ||
  char_eqb c 95%N || char_eqb c 304%N.
End BasicLatin.

Definition basic_latin : Unicode := {|
  str_lower := BasicLatin.lower;
  str_lower_empty := eq_refl;
  isspace := BasicLatin.space;
  isword := BasicLatin.word_char
|}.

(** ** The parsed page

    The tree [BeautifulSoup(page_source, 'html.parser')] builds.  A
    [NavigableString] is any string of the tree.  Of the attributes of a tag
    only the two the source reads are kept: [class_] is the value of [class],
    which the parser splits at white space into a list, and [style] is the
    value of [style]; [None] says the tag does not have the attribute. *)
#[local] Unset Elimination Schemes.
Inductive node :=
| NavigableString (text : str)
| Tag (name : str) (class_ : option (list str)) (style : option str)
      (contents : list node).
#[local] Set Elimination Schemes.

Definition soup := list node.

(** The first [Some] of [f] over a list. *)
Definition first_some {A B} (f : A -> option B) : list A -> option B :=
  fix go (l : list A) : option B :=
    match l with
    | [] => None
    | x :: l' =>
        match f x with
        | Some r => Some r
        | None => go l'
        end
    end.

(** The names given to [soup([...])]. *)
Definition unwanted : list str :=
  map lit ["nav"; "header"; "footer"; "aside"; "script"; "style"; "form";
           "button"; "div.footer"; "div.navbar"]%string.

(** [for element in soup([...]): element.decompose()]: [soup([...])] is
    [find_all] with a list of names and finds every tag whose name is equal to
    one of them; [decompose] takes the tag out of the tree with all it
    contains, so a match inside another match goes with it. *)
Fixpoint decompose_unwanted (n : node) : list node :=
  match n with
  | NavigableString _ => [n]
  | Tag name c st contents =>
      if str_in name unwanted then []
      else [Tag name c st (flat_map decompose_unwanted contents)]
  end.

Definition remove_unwanted (page : soup) : soup :=
  flat_map decompose_unwanted page.

Definition has_name (name : string) (n : node) : bool :=
  match n with
  | NavigableString _ => false
  | Tag nm _ _ _ => str_eqb nm (lit name)
  end.

Definition class_of (n : node) : option (list str) :=
  match n with
  | NavigableString _ => None
  | Tag _ c _ _ => c
  end.

(** How [find] tests the value of a multi-valued attribute against a function:
    the function is tried on every value of the list and then on the values
    joined by one space; for a tag without the attribute it is called on
    [None]. *)
Definition attr_matches (f : option str -> bool) (v : option (list str))
    : bool :=
  match v with
  | None => f None
  | Some values =>
      existsb (fun x => f (Some x)) values || f (Some (join (lit " ") values))
  end.

Section Find.
Variable p : node -> bool.

(** [find] below one node: the node itself when it is a tag that [p]
    accepts, else the first match among its contents, depth first. *)
Fixpoint find_node (n : node) : option node :=
  match n with
  | NavigableString _ => None
  | Tag _ _ _ contents =>
      if p n then Some n else first_some find_node contents
  end.

(** [soup.find(...)]: the first match in document order. *)
Definition find (page : soup) : option node := first_some find_node page.
End Find.

(** The strings below a tag in document order, each with the name and the
    [style] of its parent: [main_content.find_all(text=True)]. *)
Fixpoint strings_of (parent : node) : list (str * option str * str) :=
  match parent with
  | NavigableString _ => []
  | Tag name _ st contents =>
      flat_map (fun child =>
                  match child with
                  | NavigableString text => [(name, st, text)]
                  | Tag _ _ _ _ => strings_of child
                  end) contents
  end.

(** The two tests on [element.parent]. *)
Definition shown (parent_name : str) (parent_style : option str) : bool :=
  negb (str_in parent_name [lit "script"; lit "style"]) &&
  match parent_style with
  | None => true
  | Some st =>
      negb (contains st (lit "display: none")) &&
      negb (contains st (lit "visibility: hidden"))
  end.

Definition nonempty (s : str) : bool :=
  match s with
  | [] => false
  | _ :: _ => true
  end.

Section Extract.
Context {U : Unicode}.

(** [lambda x: x and ('content' in x.lower() or 'main' in x.lower() or
    'article' in x.lower())] *)
Definition content_class (x : option str) : bool :=
  match x with
  | None => false
  | Some [] => false
  | Some x =>
      contains (str_lower x) (lit "content") ||
      contains (str_lower x) (lit "main") ||
      contains (str_lower x) (lit "article")
  end.

Definition is_content_div (n : node) : bool :=
  has_name "div" n && attr_matches content_class (class_of n).

(** [soup.find('main') or soup.find('article') or soup.find('div', ...)]; a
    tag is always true. *)
Definition main_content (page : soup) : option node :=
  match find (has_name "main") page with
  | Some m => Some m
  | None =>
      match find (has_name "article") page with
      | Some a => Some a
      | None => find is_content_div page
      end
  end.

(** The loop over the strings of [main_content] and the final [join]. *)
Definition visible_text (root : node) : str :=
  let content :=
    map (fun e => strip (snd e))
        (filter (fun e => shown (fst (fst e)) (snd (fst e)))
                (strings_of root)) in
  join (lit " ") (filter nonempty content).

(** What [get_clean_content] does with the parsed page. *)
Definition extract (page : soup) : str :=
  match main_content (remove_unwanted page) with
  | Some root => visible_text root
  | None => []
  end.

(** [str(e)] *)
Definition exn_message (e : exn) : str :=
  match e with
  | ZeroDivisionError => lit "division by zero"
  | Exception msg => msg
  end.

(** [get_clean_content(url)].  [render url] stands for the statements
    from [Options()] to [driver.quit()], that is the browser and the parser:
    it returns the parsed page or raises.  The result is the value returned
    and the messages given to [st.error]. *)
Definition get_clean_content (render : str -> outcome soup) (url : str)
    : outcome str * list str :=
  match (page <- render url ;; Returns (extract page)) with
  | Returns text => (Returns text, [])
  | Raises e =>
      (Returns [],
       [lit "Error processing " ++ url ++ lit ": " ++ exn_message e])
  end.
End Extract.

(** Tables that are CPython's on the ASCII range. *)
Definition is_ascii (c : char) : bool := (c <? 128)%N.

Definition ascii_tables (U : Unicode) : Prop :=
  (forall s, forallb is_ascii s = true -> str_lower s = BasicLatin.lower s) /\
  (forall c, is_ascii c = true -> isspace c = BasicLatin.space c) /\
  (forall c, is_ascii c = true -> isword c = BasicLatin.word_char c).

(** ** [analyze_content] on the heap

    The pure [analyze_content] above reads the keywords as a value.  In the
    source [keywords] is a list object the caller owns and [results] is a list
    object the function creates and appends to.  The model below keeps the list
    objects in a store, so that what the call does to the objects of its
    caller can be stated. *)

Inductive pyval :=
| PStr (s : str)
| PRow (r : KeywordRecord).

(** The list objects by address. *)
Definition store := list (list pyval).
Definition loc := nat.

(** [[]]: a new list object. *)
Definition new_list (h : store) : loc * store := (length h, h ++ [[]]).

(** The item the list iterator reads at index [i]; [None] when the index is
    past the end. *)
Definition list_item (h : store) (l : loc) (i : nat) : option pyval :=
  match nth_error h l with
  | Some items => nth_error items i
  | None => None
  end.

Fixpoint update (h : store) (l : loc) (f : list pyval -> list pyval) : store :=
  match h, l with
  | [], _ => []
  | items :: h', O => f items :: h'
  | items :: h', S l' => items :: update h' l' f
  end.

(** [l.append(v)] *)
Definition list_append (h : store) (l : loc) (v : pyval) : store :=
  update h l (fun items => items ++ [v]).

(** A run either ends, with a value or an exception and the store it leaves,
    or is cut off by the fuel. *)
Inductive run (A : Type) :=
| Done (r : outcome A) (h : store)
| OutOfFuel.
Arguments Done {A} r h.
Arguments OutOfFuel {A}.

Section OnTheHeap.
Context {U : Unicode}.

(** [for keyword in keywords: ...] with the list iterator at index [i]: the
    iterator reads the list object again at every step. *)
Fixpoint for_keywords_in (fuel : nat) (content : str) (word_count : nat)
    (keywords results : loc) (i : nat) (h : store) : run unit :=
  match fuel with
  | O => OutOfFuel
  | S fuel' =>
      match list_item h keywords i with
      | None => Done (Returns tt) h
      | Some (PRow _) =>
          Done (Raises (Exception (lit "'dict' object has no attribute 'strip'"))) h
      | Some (PStr keyword) =>
          let instances := keyword_instances content keyword in
          match density instances word_count with
          | Raises e => Done (Raises e) h
          | Returns d =>
              for_keywords_in fuel' content word_count keywords results (S i)
                (list_append h results
                   (PRow {| Keyword := keyword;
                            Instances := instances;
                            Density := format_2f d ++ lit "%" |}))
          end
      end
  end.

(** [analyze_content(content, keywords)] where [keywords] is the address of
    the caller's list; the third component of the result is the address of the
    list of rows. *)
Definition analyze_content_in (fuel : nat) (content : str) (keywords : loc)
    (h : store) : run (nat * nat * loc) :=
  match content with
  | [] => let (results, h1) := new_list h in Done (Returns (0, 0, results)) h1
  | _ :: _ =>
      let word_count := length (words content) in
      let sentence_count := length (sentences content) in
      let (results, h1) := new_list h in
      match for_keywords_in fuel content word_count keywords results 0 h1 with
      | Done (Returns _) h2 =>
          Done (Returns (word_count, sentence_count, results)) h2
      | Done (Raises e) h2 => Done (Raises e) h2
      | OutOfFuel => OutOfFuel
      end
  end.
End OnTheHeap.

(** ** Notions the properties are stated with *)

(** The value [(instances / word_count * 100) if word_count > 0 else 0]
    denotes. *)
Definition density_value (instances word_count : nat) : Q :=
  match word_count with
  | O => 0
  | S _ => (inject_Z (Z.of_nat instances) / inject_Z (Z.of_nat word_count)) * 100
  end.

(** A maximal run of sentence terminators is known by the position where it
    starts: a terminator that is the first character or follows a character
    that is not one. *)
Definition terminator_at (s : str) (i : nat) : bool :=
  match nth_error s i with
  | Some c => is_terminator c
  | None => false
  end.

Definition starts_run (s : str) (i : nat) : bool :=
  terminator_at s i &&
  match i with
  | O => true
  | S j => negb (terminator_at s j)
  end.

Definition maximal_runs (s : str) : nat :=
  length (filter (starts_run s) (seq 0 (length s))).

(** The tags of a page in document order. *)
Fixpoint tags (n : node) : list node :=
  match n with
  | NavigableString _ => []
  | Tag _ _ _ contents => n :: flat_map tags contents
  end.

Definition tags_of (page : soup) : list node := flat_map tags page.

Section ContentRoot.
Context {U : Unicode}.

(** The class attribute contains [sub] when lower-cased: one of its values
    does, or the values joined by a space do. *)
Definition class_mentions (n : node) (sub : string) : bool :=
  match class_of n with
  | None => false
  | Some values =>
      existsb (fun x => contains (str_lower x) (lit sub))
              (values ++ [join (lit " ") values])
  end.

Definition content_div (n : node) : bool :=
  has_name "div" n &&
  (class_mentions n "content" || class_mentions n "main" ||
   class_mentions n "article").

(** The content root by the three rules in their order. *)
Definition content_root (page : soup) : option node :=
  match List.find (has_name "main") (tags_of page) with
  | Some m => Some m
  | None =>
      match List.find (has_name "article") (tags_of page) with
      | Some a => Some a
      | None => List.find content_div (tags_of page)
      end
  end.
End ContentRoot.

(** The class attribute has a value that contains [sub], as it is written. *)
Definition class_has (n : node) (sub : string) : bool :=
  match class_of n with
  | None => false
  | Some values => existsb (fun x => contains x (lit sub)) values
  end.

(** The run starts of a text that follows a character which is ([prev]) or is
    not a terminator. *)
Definition starts_run_after (prev : bool) (s : str) (i : nat) : bool :=
  terminator_at s i &&
  match i with
  | O => negb prev
  | S j => negb (terminator_at s j)
  end.

Definition runs_after (prev : bool) (s : str) : nat :=
  length (filter (starts_run_after prev s) (seq 0 (length s))).

(** What C1 asks of the rows: one row per keyword, each with no instance and
    the density 0.00%. *)
Definition zero_rows (keywords : list str) (rows : list KeywordRecord) : Prop :=
  map Keyword rows = keywords /\
  Forall (fun row => Instances row = 0 /\ Density row = lit "0.00%") rows.

(** The name of a tag; a string has none. *)
Definition name_of (n : node) : str :=
  match n with
  | NavigableString _ => []
  | Tag name _ _ _ => name
  end.

(** [<div class="footer">Legal</div>] and
    [<main><p>Body</p><div class="footer">Legal</div></main>]. *)
Definition footer_div : node :=
  Tag (lit "div") (Some [lit "footer"]) None [NavigableString (lit "Legal")].

Definition footer_page : soup :=
  [Tag (lit "main") None None
     [Tag (lit "p") None None [NavigableString (lit "Body")]; footer_div]].

(** An end of the text or an ASCII character. *)
Definition ascii_or_end (o : option char) : bool :=
  match o with
  | Some c => is_ascii c
  | None => true
  end.

(** What the source computes for the density, as a value, and the row the
    loop appends for one keyword. *)
Definition density_computed (instances word_count : nat) : Q :=
  match word_count with
  | O => 0
  | S _ => (Z.of_nat instances # Pos.of_nat word_count) * 100
  end.

Definition row_of {U : Unicode} (content : str) (word_count : nat)
    (keyword : str) : KeywordRecord :=
  let instances := keyword_instances content keyword in
  {| Keyword := keyword;
     Instances := instances;
     Density := format_2f (density_computed instances word_count) ++ lit "%" |}.

(** ** [str.split] with a separator, and indexing *)

(** The scan of [s.split(sep)] for a non-empty [sep]: [cur] is the piece read
    so far and [skip] counts the characters of the separator just found that
    still lie ahead. *)
Fixpoint split_from (sep s cur : str) (skip : nat) : list str :=
  match s with
  | [] => [cur]
  | c :: s' =>
      match skip with
      | S k => split_from sep s' cur k
      | O => if startswith s sep
             then cur :: split_from sep s' [] (length sep - 1)
             else split_from sep s' (cur ++ [c]) 0
      end
  end.

(** [s.split(sep)]; the empty separator is a [ValueError]. *)
Definition split (s sep : str) : outcome (list str) :=
  match sep with
  | [] => Raises (Exception (lit "empty separator"))
  | _ :: _ => Returns (split_from sep s [] 0)
  end.

(** [l[0]] and [l[-1]]; on the empty list an [IndexError]. *)
Definition item_first (l : list str) : outcome str :=
  match l with
  | [] => Raises (Exception (lit "list index out of range"))
  | x :: _ => Returns x
  end.

Definition item_last (l : list str) : outcome str := item_first (rev l).

(** ** Dicts with string keys

    A dict keeps its keys in the order they were first set; setting a key
    again changes the value where the key stands. *)
Inductive cell :=
| CStr (s : str)
| CInt (n : nat).

Definition dict := list (str * cell).

Fixpoint dict_set (d : dict) (k : str) (v : cell) : dict :=
  match d with
  | [] => [(k, v)]
  | (k', v') :: d' =>
      if str_eqb k' k then (k', v) :: d' else (k', v') :: dict_set d' k v
  end.

Fixpoint dict_get (d : dict) (k : str) : option cell :=
  match d with
  | [] => None
  | (k', v') :: d' => if str_eqb k' k then Some v' else dict_get d' k
  end.

(** The items of [items] set one after the other in [d]: a dict
    comprehension starts from the empty dict, [{..., **other}] from the dict
    of the keys written out. *)
Definition dict_update (d : dict) (items : list (str * cell)) : dict :=
  fold_left (fun acc kv => dict_set acc (fst kv) (snd kv)) items d.

(** ** What the script shows

    The calls of Streamlit that put something on the page, in the order the
    script makes them.  Layout ([st.columns], [st.spinner]), [help], [mime] and
    [height] are left out; the CSV text pandas produces from a table is not
    modelled, a download of it carries the table. *)
Inductive payload :=
| Text (s : str)
| Csv (rows : list KeywordRecord)
| CsvBulk (rows : list dict).

Inductive ui :=
| st_error (msg : str)
| st_warning (msg : str)
| st_success (msg : str)
| st_subheader (msg : str)
| st_metric (label : str) (value : nat)
| st_dataframe (rows : list KeywordRecord)
| st_dataframe_bulk (rows : list dict)
| st_text_area (label content : str)
| st_download_button (label : str) (data : payload) (file_name : str)
| st_progress (value : Q).

(** A piece of the script: what it has shown, and its value or the exception
    that ended it.  What was shown before an exception stays on the page. *)
Definition script (A : Type) : Type := list ui * outcome A.

Definition sret {A} (a : A) : script A := ([], Returns a).

Definition sbind {A B} (m : script A) (k : A -> script B) : script B :=
  match m with
  | (shown, Returns a) => let (shown', r) := k a in (shown ++ shown', r)
  | (shown, Raises e) => (shown, Raises e)
  end.

Notation "x <~ m ;; k" := (sbind m (fun x => k))
  (at level 61, m at next level, right associativity).

Definition emit (l : list ui) : script unit := (l, Returns tt).

Definition lift {A} (o : outcome A) : script A := ([], o).

(** [try: m except Exception as e: handler e] *)
Definition try_except {A} (m : script A) (handler : exn -> script A)
    : script A :=
  match m with
  | (shown, Returns a) => (shown, Returns a)
  | (shown, Raises e) => let (shown', r) := handler e in (shown ++ shown', r)
  end.

(** The four emoji of the messages: U+1F389, U+1F4CA, U+1F511, U+1F4E5. *)
Definition party : str := [127881%N].
Definition chart : str := [128202%N].
Definition key_emoji : str := [128273%N].
Definition inbox : str := [128229%N].

(** [sum(...)] over ints. *)
Definition sum (l : list nat) : nat := fold_left Nat.add l 0.

(** [s.endswith(suffix)] *)
Definition endswith (s suffix : str) : bool :=
  startswith (rev s) (rev suffix).

(** The uploaded file: its name, and what each of the three ways of reading
    it gives, the URLs or the exception raised:
    [pd.read_csv(uploaded_file).iloc[:, 0].dropna().tolist()], the same with
    [pd.read_excel], and [[line.strip() for line in uploaded_file]].  A URL
    read is whatever object pandas or the file gives: a str, a number or, for
    the lines of a text file, bytes.  The script passes it to the browser,
    shows it in an error message and stores it in the cell [URL]; the model
    keeps of it the text an f-string shows, and [render] tells what the
    browser does with it. *)
Record upload := {
  upload_name : str;
  read_csv : outcome (list str);
  read_excel : outcome (list str);
  read_lines : outcome (list str)
}.

(** The [if]/[elif]/[elif] on the name of the file: it binds [urls], or it
    raises what the reading raises, or, when the name ends with none of the
    three, it leaves [urls] unbound ([None]). *)
Definition read_urls (f : upload) : outcome (option (list str)) :=
  if endswith (upload_name f) (lit ".csv") then
    urls <- read_csv f ;; Returns (Some urls)
  else if endswith (upload_name f) (lit ".xlsx") then
    urls <- read_excel f ;; Returns (Some urls)
  else if endswith (upload_name f) (lit ".txt") then
    urls <- read_lines f ;; Returns (Some urls)
  else Returns None.

(** The name [urls] where the loop reads it: unbound, it is a [NameError]. *)
Definition lookup_urls (binding : option (list str)) : outcome (list str) :=
  match binding with
  | Some urls => Returns urls
  | None => Raises (Exception (lit "name 'urls' is not defined"))
  end.

Section Tabs.
Context {U : Unicode}.

(** The browser and the parser, as in [get_clean_content]. *)
Variable render : str -> outcome soup.

(** [[k.strip() for k in keywords.split(",")]] *)
Definition keywords_list_of (keywords : str) : outcome (list str) :=
  pieces <- split keywords (lit ",") ;;
  Returns (map strip pieces).

(** [f"{url.split('//')[-1].split('/')[0]}_cleaned_content.txt"] *)
Definition cleaned_content_name (url : str) : outcome str :=
  parts <- split url (lit "//") ;;
  tail <- item_last parts ;;
  parts' <- split tail (lit "/") ;;
  host <- item_first parts' ;;
  Returns (host ++ lit "_cleaned_content.txt").

(** A call of [get_clean_content] inside the script: its [st.error] messages
    are shown. *)
Definition call_get_clean_content (url : str) : script str :=
  let (r, errors) := get_clean_content render url in
  (map st_error errors, r).

(** The tab "Single URL Analyzer" once [url] and [keywords] are typed in;
    [clicked] is what [st.button] returns and [show_content] what
    [st.checkbox] returns. *)
Definition single_url_tab (url keywords : str) (clicked show_content : bool)
    : script unit :=
  if clicked then
    if nonempty url && nonempty keywords then
      keywords_list <~ lift (keywords_list_of keywords) ;;
      content <~ call_get_clean_content url ;;
      if nonempty content then
        r <~ lift (analyze_content content keywords_list) ;;
        let '(word_count, sentence_count, analysis) := r in
        _ <~ emit [st_success (lit "Analysis complete! " ++ party);
                   st_subheader (chart ++ lit " Analysis Results");
                   st_metric (lit "Total Words") word_count;
                   st_metric (lit "Total Sentences") sentence_count;
                   st_subheader (key_emoji ++ lit " Keyword Analysis");
                   st_dataframe analysis] ;;
        _ <~ emit (if show_content
                   then [st_text_area (lit "Extracted Content") content]
                   else []) ;;
        file_name <~ lift (cleaned_content_name url) ;;
        emit [st_download_button (inbox ++ lit " Download Cleaned Content")
                (Text content) file_name;
              st_download_button (chart ++ lit " Download Keyword Analysis")
                (Csv analysis) (lit "keyword_analysis.csv")]
      else
        emit [st_warning
                (lit "No content found on the page. Please check the URL.")]
    else
      emit [st_warning (lit "Please provide both URL and keywords.")]
  else sret tt.

(** The loop of the tab "Keyword Tool": as in [analyze_content], but the
    keyword is lower-cased without [strip]. *)
Definition tool_step (text_content : str) (word_count : nat)
    (results : list KeywordRecord) (keyword : str)
    : outcome (list KeywordRecord) :=
  let kw := str_lower keyword in
  let instances := count (str_lower text_content) kw in
  d <- density instances word_count ;;
  Returns (results ++ [ {| Keyword := keyword;
                           Instances := instances;
                           Density := format_2f d ++ lit "%" |} ]).

Fixpoint for_tool_keywords (text_content : str) (word_count : nat)
    (keywords_list : list str) (results : list KeywordRecord)
    : outcome (list KeywordRecord) :=
  match keywords_list with
  | [] => Returns results
  | keyword :: rest =>
      results' <- tool_step text_content word_count results keyword ;;
      for_tool_keywords text_content word_count rest results'
  end.

(** The tab "Keyword Tool"; the button is there only when the text and the
    keywords are not empty. *)
Definition keyword_tool_tab (text_content tool_keywords : str)
    (clicked : bool) : script unit :=
  if nonempty text_content && nonempty tool_keywords && clicked then
    keywords_list <~ lift (keywords_list_of tool_keywords) ;;
    let word_count := length (words text_content) in
    results <~ lift (for_tool_keywords text_content word_count
                       keywords_list []) ;;
    emit [st_success (lit "Keyword analysis complete! " ++ party);
          st_subheader (chart ++ lit " Analysis Results");
          st_metric (lit "Total Words") word_count;
          st_metric (lit "Total Keywords Found") (sum (map Instances results));
          st_subheader (key_emoji ++ lit " Keyword Analysis");
          st_dataframe results;
          st_download_button (inbox ++ lit " Download Keyword Analysis")
            (Csv results) (lit "keyword_analysis.csv")]
  else sret tt.

(** [next((a["Density (%)"] for a in analysis if a["Keyword"] == kw),
    "0.00%")] *)
Definition density_column (analysis : list KeywordRecord) (kw : str) : str :=
  match List.find (fun a => str_eqb (Keyword a) kw) analysis with
  | Some a => Density a
  | None => lit "0.00%"
  end.

(** The dict appended to [results] for one URL. *)
Definition bulk_result (url : str) (word_count sentence_count : nat)
    (analysis : list KeywordRecord) (keywords_list : list str) : dict :=
  dict_update
    [(lit "URL", CStr url);
     (lit "Word Count", CInt word_count);
     (lit "Sentence Count", CInt sentence_count)]
    (dict_update []
       (map (fun kw => (kw ++ lit " Density",
                        CStr (density_column analysis kw)))
            keywords_list)).

(** [for i, url in enumerate(urls): ...]; [total] is [len(urls)].  The
    progress bar is given the double of [(i + 1) / total]. *)
Fixpoint for_urls (total : nat) (keywords_list : list str) (i : nat)
    (urls : list str) (results : list dict) : script (list dict) :=
  match urls with
  | [] => sret results
  | url :: rest =>
      content <~ call_get_clean_content url ;;
      results' <~
        (if nonempty content then
           r <~ lift (analyze_content content keywords_list) ;;
           let '(word_count, sentence_count, analysis) := r in
           sret (results ++ [bulk_result url word_count sentence_count
                               analysis keywords_list])
         else sret results) ;;
      p <~ lift (truediv (i + 1) total) ;;
      _ <~ emit [st_progress (binary64 p)] ;;
      for_urls total keywords_list (S i) rest results'
  end.

(** The [try] block of the tab "Bulk Analyzer". *)
Definition bulk_body (f : upload) (bulk_keywords : str) : script unit :=
  binding <~ lift (read_urls f) ;;
  keywords_list <~ lift (keywords_list_of bulk_keywords) ;;
  _ <~ emit [st_progress 0] ;;
  urls <~ lift (lookup_urls binding) ;;
  results <~ for_urls (length urls) keywords_list 0 urls [] ;;
  match results with
  | [] => emit [st_warning
                  (lit "No valid content found in provided URLs.")]
  | _ :: _ =>
      emit [st_success (lit "Bulk analysis complete! " ++ party);
            st_subheader (chart ++ lit " Bulk Analysis Results");
            st_dataframe_bulk results;
            st_download_button
              (inbox ++ lit " Download Bulk Analysis Report")
              (CsvBulk results) (lit "bulk_analysis_report.csv")]
  end.

(** The tab "Bulk Analyzer".  [uploaded] is [None] without a file; the
    button is there only with a file and keywords. *)
Definition bulk_tab (uploaded : option upload) (bulk_keywords : str)
    (clicked : bool) : script unit :=
  match uploaded with
  | None => sret tt
  | Some f =>
      if nonempty bulk_keywords && clicked then
        try_except
          (bulk_body f bulk_keywords)
          (fun e => emit [st_error (lit "Error processing bulk analysis: "
                                    ++ exn_message e)])
      else sret tt
  end.

(** What [get_clean_content] returns for a URL. *)
Definition content_of (url : str) : str :=
  match fst (get_clean_content render url) with
  | Returns text => text
  | Raises _ => []
  end.
End Tabs.

(** The values given to [st.progress]. *)
Definition progress_values (shown : list ui) : list Q :=
  flat_map (fun u => match u with
                     | st_progress p => [p]
                     | _ => []
                     end) shown.

(** ** Words as runs

    A run is a maximal stretch of characters of the class [[\w'-]]. *)
Section WordRuns.
Context {U : Unicode}.

(** The runs that contain a word character, counted at their first word
    character; [seen] says the run the text continues has had one. *)
Fixpoint word_runs (seen : bool) (s : str) : nat :=
  match s with
  | [] => 0
  | c :: s' =>
      if in_word_class c
      then (if isword c && negb seen then 1 else 0) +
           word_runs (seen || isword c) s'
      else word_runs false s'
  end.

(** The run [s] starts with has a word character. *)
Fixpoint run_has_word (s : str) : bool :=
  match s with
  | [] => false
  | c :: s' => in_word_class c && (isword c || run_has_word s')
  end.

(** The length of the run [s] starts with, up to its last word character. *)
Fixpoint last_word_end (s : str) : nat :=
  match s with
  | [] => 0
  | c :: s' =>
      if in_word_class c
      then if run_has_word s' then S (last_word_end s')
           else if isword c then 1 else 0
      else 0
  end.

(** A text that does not start and does not end with a character [strip]
    removes. *)
Definition starts_clean (s : str) : Prop :=
  exists c t, s = c :: t /\ isspace c = false.

Definition trimmed (s : str) : Prop :=
  s = [] \/ (starts_clean s /\ starts_clean (rev s)).
End WordRuns.

(** The rows of the bulk table for a list of URLs: one for each URL whose
    content is not empty, made of the counts and the rows of that content. *)
Definition bulk_rows {U : Unicode} (render : str -> outcome soup)
    (keywords_list urls : list str) : list dict :=
  flat_map
    (fun url =>
       let content := content_of render url in
       if nonempty content then
         let word_count := length (words content) in
         [bulk_result url word_count (length (sentences content))
            (map (row_of content word_count) keywords_list) keywords_list]
       else [])
    urls.

(** What the bulk tab shows after the loop. *)
Definition bulk_report (results : list dict) : list ui :=
  match results with
  | [] => [st_warning (lit "No valid content found in provided URLs.")]
  | _ :: _ =>
      [st_success (lit "Bulk analysis complete! " ++ party);
       st_subheader (chart ++ lit " Bulk Analysis Results");
       st_dataframe_bulk results;
       st_download_button (inbox ++ lit " Download Bulk Analysis Report")
         (CsvBulk results) (lit "bulk_analysis_report.csv")]
  end.

(** A page and a browser for the examples: one URL has a page with text,
    one a page without, every other URL fails. *)
Definition sample_page : soup :=
  [Tag (lit "article") None None [NavigableString (lit " SEO tips. ")]].

Definition sample_render (url : str) : outcome soup :=
  if str_eqb url (lit "https://example.com/blog") then Returns sample_page
  else if str_eqb url (lit "https://example.com/empty") then Returns []
  else Raises (Exception (lit "unreachable")).

(** An uploaded file for the examples: [urls] are the first column when it
    is read as a CSV file; it cannot be read as a spreadsheet; its lines are
    bytes, shown as [b'...'] (the URLs of the examples are plain ASCII
    without quote or backslash). *)
Definition sample_upload (file_name : str) (urls : list str) : upload :=
  {| upload_name := file_name;
     read_csv := Returns urls;
     read_excel := Raises (Exception (lit "File is not a zip file"));
     read_lines := Returns (map (fun url => lit "b'" ++ url ++ lit "'") urls) |}.

(** The tags and strings of a page in document order, each with the names
    of the tags it lies in, the nearest first.  A tag is listed by its name
    and its two attributes. *)
Inductive item :=
| TagItem (name : str) (class_ : option (list str)) (style : option str)
| StringItem (text : str).

Fixpoint items_in (ancestors : list str) (n : node)
    : list (list str * item) :=
  match n with
  | NavigableString text => [(ancestors, StringItem text)]
  | Tag name c st contents =>
      (ancestors, TagItem name c st) ::
      flat_map (fun child => items_in (name :: ancestors) child) contents
  end.

Definition items_of (page : soup) : list (list str * item) :=
  flat_map (items_in []) page.

(** An item that is a tag with a name of the list given to [soup(...)], or
    that lies in such a tag. *)
Definition unwanted_item (e : list str * item) : bool :=
  existsb (fun name => str_in name unwanted) (fst e) ||
  match snd e with
  | TagItem name _ _ => str_in name unwanted
  | StringItem _ => false
  end.

(** * Properties of the text analyzer *)

Lemma density_total (instances word_count : nat) :
  density instances word_count = Returns (density_computed instances word_count).
Proof.
  unfold density, density_computed.
  destruct word_count as [|w]; reflexivity.
Qed.

Lemma Zpos_of_nat_succ (w : nat) : Zpos (Pos.of_nat (S w)) = Z.of_nat (S w).
Proof.
  rewrite <- Pos.of_nat_succ, Zpos_P_of_succ_nat, Nat2Z.inj_succ. reflexivity.
Qed.

Lemma density_computed_value (instances word_count : nat) :
  (density_computed instances word_count == density_value instances word_count)%Q.
Proof.
  unfold density_computed, density_value.
  destruct word_count as [|w]; [reflexivity|].
  rewrite Qmake_Qdiv, Zpos_of_nat_succ. reflexivity.
Qed.

Lemma density_computed_nonneg (instances word_count : nat) :
  (0 <= density_computed instances word_count)%Q.
Proof.
  unfold density_computed.
  destruct word_count as [|w]; [apply Qle_refl|].
  apply Qmult_le_0_compat; [|discriminate].
  unfold Qle; simpl. lia.
Qed.

Section Rows.
Context {U : Unicode}.

Lemma keyword_step_row content word_count results keyword :
  keyword_step content word_count results keyword =
  Returns (results ++ [row_of content word_count keyword]).
Proof.
  unfold keyword_step. rewrite density_total. reflexivity.
Qed.

Lemma for_keywords_rows content word_count keywords :
  forall results,
    for_keywords content word_count keywords results =
    Returns (results ++ map (row_of content word_count) keywords).
Proof.
  induction keywords as [|keyword rest IH]; intros results; simpl.
  - now rewrite app_nil_r.
  - rewrite keyword_step_row. simpl. rewrite IH, <- app_assoc. reflexivity.
Qed.

Lemma analyze_content_rows content keywords :
  content <> [] ->
  analyze_content content keywords =
  Returns (length (words content), length (sentences content),
           map (row_of content (length (words content))) keywords).
Proof.
  intros Hne. destruct content as [|c content']; [contradiction|].
  unfold analyze_content. rewrite for_keywords_rows. reflexivity.
Qed.
End Rows.

(** C1, as amended.  The empty text leaves [analyze_content] at its first
    statement: whatever keywords are supplied, the result is word count 0,
    sentence count 0 and the empty list of rows. *)
Theorem analyze_empty_text :
  forall (U : Unicode) (keywords : list str),
    analyze_content [] keywords = Returns (0, 0, []).
Proof.
  intros U keywords. reflexivity.
Qed.

(** C1, as stated, fails: for the empty text and the keywords
    [["anything"]] the list of rows is empty, so the keyword has no row. *)
Lemma analyze_empty_text_has_no_rows :
  exists rows : list KeywordRecord,
    @analyze_content basic_latin [] [lit "anything"] = Returns (0, 0, rows) /\
    ~ zero_rows [lit "anything"] rows.
Proof.
  exists []. split; [reflexivity|].
  intros [Hmap _]. discriminate Hmap.
Qed.

(** C7.  For a non-empty text the rows are one per keyword, in the order of
    the keywords, duplicates included, and the ["Keyword"] of each row is the
    keyword as it was passed in. *)
Theorem one_row_per_keyword :
  forall (U : Unicode) (content : str) (keywords : list str),
    content <> [] ->
    exists word_count sentence_count rows,
      analyze_content content keywords =
        Returns (word_count, sentence_count, rows) /\
      map Keyword rows = keywords /\
      length rows = length keywords.
Proof.
  intros U content keywords Hne.
  exists (length (words content)), (length (sentences content)),
         (map (row_of content (length (words content))) keywords).
  split; [now apply analyze_content_rows|].
  split; [|apply length_map].
  rewrite map_map. simpl. apply map_id.
Qed.

Lemma one_row_per_keyword_witness :
  exists word_count sentence_count rows,
    @analyze_content basic_latin (lit "seo tips") [lit "seo"; lit " tips"; lit "seo"] =
      Returns (word_count, sentence_count, rows) /\
    map Keyword rows = [lit "seo"; lit " tips"; lit "seo"] /\
    length rows = 3.
Proof.
  apply (one_row_per_keyword basic_latin (lit "seo tips")
           [lit "seo"; lit " tips"; lit "seo"]).
  discriminate.
Defined.

(** The guarded expression on any two counts: it never raises, it is not
    negative, it is the quotient times 100 for a positive word count and 0
    for the word count 0. *)
Lemma density_cases (instances word_count : nat) :
  exists d : Q,
    density instances word_count = Returns d /\
    (0 <= d)%Q /\
    (0 < word_count ->
     (d == inject_Z (Z.of_nat instances) / inject_Z (Z.of_nat word_count) * 100)%Q) /\
    (word_count = 0 -> (d == 0)%Q).
Proof.
  exists (density_computed instances word_count).
  split; [apply density_total|].
  split; [apply density_computed_nonneg|].
  split.
  - intros Hpos. rewrite density_computed_value.
    destruct word_count as [|w]; [inversion Hpos|reflexivity].
  - intros ->. reflexivity.
Qed.

(** C5.  [analyze_content] returns for every text and every list of
    keywords: no division raises.  For a non-empty text the word count is the
    number of words found, and for every keyword of the list the body of the
    loop returns, whatever the rows so far, with one row more; the row of the
    keyword shows a density [d] that is not negative, that is
    [instances / word_count * 100] when the word count is positive, and that
    is 0 when the word count is 0, whatever the instances.  The same holds of
    the guarded expression on any two counts. *)
Theorem density_guarded :
  forall (U : Unicode) (content : str) (keywords : list str),
    exists word_count sentence_count rows,
      analyze_content content keywords =
        Returns (word_count, sentence_count, rows) /\
      (content <> [] -> word_count = length (words content)) /\
      (forall i keyword,
         content <> [] ->
         nth_error keywords i = Some keyword ->
         exists row d,
           nth_error rows i = Some row /\
           (forall results,
              keyword_step content word_count results keyword =
              Returns (results ++ [row])) /\
           Instances row = keyword_instances content keyword /\
           density (Instances row) word_count = Returns d /\
           Density row = format_2f d ++ lit "%" /\
           (0 <= d)%Q /\
           (0 < word_count ->
            (d == inject_Z (Z.of_nat (Instances row)) /
                  inject_Z (Z.of_nat word_count) * 100)%Q) /\
           (word_count = 0 -> (d == 0)%Q)) /\
      (forall instances count,
         exists d,
           density instances count = Returns d /\
           (0 <= d)%Q /\
           (0 < count ->
            (d == inject_Z (Z.of_nat instances) /
                  inject_Z (Z.of_nat count) * 100)%Q) /\
           (count = 0 -> (d == 0)%Q)).
Proof.
  intros U content keywords.
  destruct content as [|c content'].
  - exists 0, 0, []. split; [reflexivity|].
    split; [intros H; now contradiction H|].
    split; [intros i keyword H; now contradiction H|apply density_cases].
  - set (content := c :: content').
    exists (length (words content)), (length (sentences content)),
           (map (row_of content (length (words content))) keywords).
    split; [apply analyze_content_rows; discriminate|].
    split; [reflexivity|].
    split; [|apply density_cases].
    intros i keyword _ Hnth.
    exists (row_of content (length (words content)) keyword),
           (density_computed (keyword_instances content keyword)
                             (length (words content))).
    split; [now apply map_nth_error|].
    split; [intros results; apply keyword_step_row|].
    split; [reflexivity|].
    cbn [row_of Instances Density].
    split; [apply density_total|].
    split; [reflexivity|].
    split; [apply density_computed_nonneg|].
    split.
    + intros Hpos. rewrite density_computed_value.
      destruct (length (words content)); [inversion Hpos|reflexivity].
    + intros ->. reflexivity.
Qed.

(** A text without a word: ["'-'"] has three characters and no word, so that
    the guard is what keeps the division from raising; the keyword ["-"]
    has one instance and the density shown is 0.00%. *)
Example density_guarded_no_word :
  @analyze_content basic_latin (lit "'-'") [lit "-"] =
  Returns (0, 0, [ {| Keyword := lit "-"; Instances := 1;
                      Density := lit "0.00%" |} ]).
Proof. reflexivity. Qed.

(** 23 instances in 160 words: the quotient 0.14375 is not a double, and
    the product of its double with 100 is the double just below 14.375. *)
Example density_display_double :
  match density 23 160 with
  | Returns d => format_2f d
  | Raises _ => []
  end = lit "14.37".
Proof. reflexivity. Qed.

(** ** Sentences *)

Lemma filter_seq_succ (f : nat -> bool) (n : nat) :
  length (filter f (seq 1 n)) = length (filter (fun i => f (S i)) (seq 0 n)).
Proof.
  rewrite <- seq_shift.
  generalize (seq 0 n) as l.
  induction l as [|i l IH]; simpl; [reflexivity|].
  destruct (f (S i)); simpl; now rewrite IH.
Qed.

Lemma runs_after_nil (prev : bool) : runs_after prev [] = 0.
Proof. reflexivity. Qed.

Lemma runs_after_cons (prev : bool) (c : char) (s : str) :
  runs_after prev (c :: s) =
  (if is_terminator c && negb prev then 1 else 0) +
  runs_after (is_terminator c) s.
Proof.
  unfold runs_after. simpl length at 2. simpl seq. simpl filter.
  assert (Hrest :
    length (filter (starts_run_after prev (c :: s)) (seq 1 (length s))) =
    length (filter (starts_run_after (is_terminator c) s) (seq 0 (length s)))).
  { rewrite filter_seq_succ. f_equal. apply filter_ext.
    intros [|j]; reflexivity. }
  unfold starts_run_after at 1. unfold terminator_at at 1. simpl nth_error.
  destruct (is_terminator c && negb prev); simpl; rewrite Hrest; reflexivity.
Qed.

Lemma maximal_runs_after (s : str) : maximal_runs s = runs_after false s.
Proof.
  unfold maximal_runs, runs_after. apply f_equal, filter_ext.
  intros [|j]; reflexivity.
Qed.

(** The scan, outside a run and inside one with the rest of the run still to
    skip, against the count of run starts. *)
Lemma scan_terminators_runs (s : str) :
  forall prev,
    length (scan match_terminators prev s 0) = runs_after false s /\
    length (scan match_terminators prev s (run_length is_terminator s)) =
      runs_after true s.
Proof.
  induction s as [|c s IH]; intros prev; [split; reflexivity|].
  destruct (IH (Some c)) as [IHout IHin].
  rewrite !runs_after_cons. cbn [scan].
  unfold match_terminators in *. cbn [run_length].
  destruct (is_terminator c); cbn [andb negb Nat.add length].
  - split; [now rewrite IHin|exact IHin].
  - split; exact IHout.
Qed.

Lemma sentences_maximal_runs (content : str) :
  length (sentences content) = maximal_runs content.
Proof.
  unfold sentences, findall.
  rewrite maximal_runs_after. apply scan_terminators_runs.
Qed.

(** C8.  For a non-empty text the sentence count returned is the number of
    maximal runs of the characters [.], [!] and [?]: the number of positions
    where such a run starts. *)
Theorem sentence_count_maximal_runs :
  forall (U : Unicode) (content : str) (keywords : list str),
    content <> [] ->
    exists word_count rows,
      analyze_content content keywords =
        Returns (word_count, maximal_runs content, rows).
Proof.
  intros U content keywords Hne.
  rewrite (analyze_content_rows content keywords Hne).
  rewrite sentences_maximal_runs. eauto.
Qed.

(** ["Wait... what?!"] has two runs, ["..."] and ["?!"], and each counts
    once. *)
Lemma sentence_count_maximal_runs_witness :
  exists word_count rows,
    @analyze_content basic_latin (lit "Wait... what?!") [] =
      Returns (word_count, 2, rows).
Proof.
  apply (sentence_count_maximal_runs basic_latin (lit "Wait... what?!") []).
  discriminate.
Defined.

(** ** Keywords that are blank *)

Lemma scan_length_le (match_at : option char -> str -> nat) (s : str) :
  forall prev skip, length (scan match_at prev s skip) <= length s.
Proof.
  induction s as [|c s IH]; intros prev skip; simpl; [lia|].
  destruct skip as [|k].
  - destruct (match_at prev (c :: s)) as [|k]; simpl.
    + specialize (IH (Some c) 0). lia.
    + specialize (IH (Some c) k). lia.
  - specialize (IH (Some c) k). lia.
Qed.

Lemma word_count_le_length {U : Unicode} (content : str) :
  length (words content) <= length content.
Proof. apply scan_length_le. Qed.

Lemma blank_keyword_count {U : Unicode} (content keyword : str) :
  strip keyword = [] ->
  keyword_instances content keyword = S (length (str_lower content)).
Proof.
  intros Hblank. unfold keyword_instances.
  rewrite Hblank, str_lower_empty. reflexivity.
Qed.

Lemma density_computed_above_100 (instances word_count : nat) :
  0 < word_count -> word_count < instances ->
  (100 < density_computed instances word_count)%Q.
Proof.
  intros Hpos Hlt. destruct word_count as [|w]; [inversion Hpos|].
  unfold density_computed, Qlt.
  cbn [Qnum Qden Qmult].
  rewrite Pos2Z.inj_mul, Zpos_of_nat_succ. lia.
Qed.

(** C10, as amended.  A keyword that is empty once stripped is counted
    [len(content.lower()) + 1] times in a non-empty text, which is
    [len(content) + 1] whenever lower-casing keeps the length of the text.
    The density is that count divided by the word count, times 100, when the
    text has a word, and it is above 100 whenever, besides, lower-casing does
    not shorten the text. *)
Theorem blank_keyword_instances :
  forall (U : Unicode) (content : str) (keywords : list str) (i : nat)
         (keyword : str),
    content <> [] ->
    nth_error keywords i = Some keyword ->
    strip keyword = [] ->
    exists word_count sentence_count rows row d,
      analyze_content content keywords =
        Returns (word_count, sentence_count, rows) /\
      nth_error rows i = Some row /\
      Keyword row = keyword /\
      Instances row = S (length (str_lower content)) /\
      (length (str_lower content) = length content ->
       Instances row = S (length content)) /\
      density (Instances row) word_count = Returns d /\
      Density row = format_2f d ++ lit "%" /\
      (0 < word_count ->
       (d == inject_Z (Z.of_nat (S (length (str_lower content)))) /
             inject_Z (Z.of_nat word_count) * 100)%Q) /\
      (0 < word_count -> length content <= length (str_lower content) ->
       (100 < d)%Q).
Proof.
  intros U content keywords i keyword Hne Hnth Hblank.
  pose proof (blank_keyword_count content keyword Hblank) as Hcount.
  exists (length (words content)), (length (sentences content)),
         (map (row_of content (length (words content))) keywords),
         (row_of content (length (words content)) keyword),
         (density_computed (S (length (str_lower content)))
                           (length (words content))).
  split; [now apply analyze_content_rows|].
  split; [now apply map_nth_error|].
  split; [reflexivity|].
  cbn [row_of Instances Density]. rewrite Hcount.
  split; [reflexivity|].
  split; [now intros ->|].
  split; [apply density_total|].
  split; [reflexivity|].
  split.
  - intros Hpos. rewrite density_computed_value.
    destruct (length (words content)); [inversion Hpos|reflexivity].
  - intros Hpos Hlen. apply density_computed_above_100; [exact Hpos|].
    pose proof (word_count_le_length content). lia.
Qed.

Lemma blank_keyword_instances_witness :
  exists word_count sentence_count rows row d,
    @analyze_content basic_latin (lit "a") [lit " "] =
      Returns (word_count, sentence_count, rows) /\
    nth_error rows 0 = Some row /\
    Keyword row = lit " " /\
    Instances row = 2 /\
    (1 = 1 -> Instances row = 2) /\
    density (Instances row) word_count = Returns d /\
    Density row = format_2f d ++ lit "%" /\
    (0 < word_count ->
     (d == inject_Z 2 / inject_Z (Z.of_nat word_count) * 100)%Q) /\
    (0 < word_count -> 1 <= 1 -> (100 < d)%Q).
Proof.
  apply (blank_keyword_instances basic_latin (lit "a") [lit " "] 0 (lit " "));
    [discriminate|reflexivity|reflexivity].
Defined.

(** C10, as stated, fails on the text that is the single character U+0130
    and the empty keyword: lower-casing gives two characters, so the count is
    3 and not [len(content) + 1], which is 2. *)
Lemma blank_keyword_dotted_capital_I :
  exists row : KeywordRecord,
    @strip basic_latin [] = [] /\
    @analyze_content basic_latin [304%N] [[]] = Returns (1, 0, [row]) /\
    Instances row = 3 /\
    Instances row <> S (length [304%N]).
Proof.
  eexists. split; [reflexivity|]. split; [reflexivity|].
  split; [reflexivity|discriminate].
Qed.

(** ** ASCII texts

    On an ASCII text with ASCII keywords the analysis is the same for all
    tables that are CPython's on the ASCII range. *)

Lemma scan_ext (m1 m2 : option char -> str -> nat) :
  (forall prev s, ascii_or_end prev = true -> forallb is_ascii s = true ->
                  m1 prev s = m2 prev s) ->
  forall s prev skip,
    ascii_or_end prev = true -> forallb is_ascii s = true ->
    scan m1 prev s skip = scan m2 prev s skip.
Proof.
  intros Hm. induction s as [|c s IH]; intros prev skip Hprev Hs; [reflexivity|].
  pose proof Hs as Hcs.
  cbn [forallb] in Hs. apply andb_true_iff in Hs. destruct Hs as [Hc Hs].
  cbn [scan]. destruct skip as [|k].
  - rewrite (Hm prev (c :: s) Hprev Hcs).
    destruct (m2 prev (c :: s)); rewrite IH; auto.
  - apply IH; auto.
Qed.

Lemma forallb_rev (p : char -> bool) (s : str) :
  forallb p s = true -> forallb p (rev s) = true.
Proof.
  rewrite !forallb_forall. intros H x Hx. apply H. now apply in_rev.
Qed.

Section AsciiTables.
Context {U : Unicode}.
Hypothesis tables : ascii_tables U.

Lemma isword_ascii (c : char) :
  is_ascii c = true -> @isword U c = BasicLatin.word_char c.
Proof. apply tables. Qed.

Lemma isspace_ascii (c : char) :
  is_ascii c = true -> @isspace U c = BasicLatin.space c.
Proof. apply tables. Qed.

Lemma str_lower_ascii (s : str) :
  forallb is_ascii s = true -> @str_lower U s = BasicLatin.lower s.
Proof. apply tables. Qed.

Lemma in_word_class_ascii (c : char) :
  is_ascii c = true -> @in_word_class U c = @in_word_class basic_latin c.
Proof.
  intros Hc. unfold in_word_class. now rewrite isword_ascii.
Qed.

Lemma boundary_ascii (prev next : option char) :
  ascii_or_end prev = true -> ascii_or_end next = true ->
  @boundary U prev next = @boundary basic_latin prev next.
Proof.
  intros Hp Hn. unfold boundary.
  destruct prev as [a|], next as [b|]; cbn [isword_at ascii_or_end] in *;
    rewrite ?isword_ascii by assumption; reflexivity.
Qed.

Lemma word_tail_ascii (s : str) :
  forall prev,
    is_ascii prev = true -> forallb is_ascii s = true ->
    @word_tail U prev s = @word_tail basic_latin prev s.
Proof.
  induction s as [|c s IH]; intros prev Hprev Hs; cbn [word_tail].
  - now rewrite boundary_ascii.
  - cbn [forallb] in Hs. apply andb_true_iff in Hs. destruct Hs as [Hc Hs].
    rewrite in_word_class_ascii, IH, boundary_ascii by assumption.
    reflexivity.
Qed.

Lemma match_word_ascii (prev : option char) (s : str) :
  ascii_or_end prev = true -> forallb is_ascii s = true ->
  @match_word U prev s = @match_word basic_latin prev s.
Proof.
  intros Hprev Hs. destruct s as [|c s]; [reflexivity|].
  cbn [forallb] in Hs. apply andb_true_iff in Hs. destruct Hs as [Hc Hs].
  cbn [match_word].
  rewrite boundary_ascii, in_word_class_ascii, word_tail_ascii by assumption.
  reflexivity.
Qed.

Lemma words_ascii (content : str) :
  forallb is_ascii content = true ->
  @words U content = @words basic_latin content.
Proof.
  intros Hs. unfold words, findall.
  apply scan_ext; [apply match_word_ascii|reflexivity|exact Hs].
Qed.

Lemma lstrip_ascii (s : str) :
  forallb is_ascii s = true ->
  @lstrip U s = @lstrip basic_latin s /\
  forallb is_ascii (@lstrip basic_latin s) = true.
Proof.
  induction s as [|c s IH]; intros Hs; [split; reflexivity|].
  pose proof Hs as Hcs.
  cbn [forallb] in Hs. apply andb_true_iff in Hs. destruct Hs as [Hc Hs].
  cbn [lstrip]. rewrite isspace_ascii by assumption.
  change (@isspace basic_latin c) with (BasicLatin.space c).
  destruct (BasicLatin.space c); [now apply IH|now split].
Qed.

Lemma strip_ascii (s : str) :
  forallb is_ascii s = true ->
  @strip U s = @strip basic_latin s /\
  forallb is_ascii (@strip basic_latin s) = true.
Proof.
  intros Hs. unfold strip, rstrip.
  destruct (lstrip_ascii s Hs) as [Hl Hl'].
  rewrite Hl.
  destruct (lstrip_ascii (rev (@lstrip basic_latin s)) (forallb_rev _ _ Hl'))
    as [Hr Hr'].
  rewrite Hr. split; [reflexivity|now apply forallb_rev].
Qed.

Lemma keyword_instances_ascii (content keyword : str) :
  forallb is_ascii content = true -> forallb is_ascii keyword = true ->
  @keyword_instances U content keyword =
  @keyword_instances basic_latin content keyword.
Proof.
  intros Hc Hk. unfold keyword_instances.
  destruct (strip_ascii keyword Hk) as [Hs Hs'].
  rewrite Hs, !str_lower_ascii by assumption. reflexivity.
Qed.

Lemma analyze_content_ascii (content : str) (keywords : list str) :
  forallb is_ascii content = true ->
  forallb (forallb is_ascii) keywords = true ->
  @analyze_content U content keywords =
  @analyze_content basic_latin content keywords.
Proof.
  intros Hc Hk. destruct content as [|c content']; [reflexivity|].
  rewrite !analyze_content_rows by discriminate.
  rewrite words_ascii by assumption.
  do 2 f_equal. apply map_ext_in. intros keyword Hin.
  rewrite forallb_forall in Hk.
  unfold row_of. now rewrite keyword_instances_ascii by auto.
Qed.
End AsciiTables.

Lemma basic_latin_tables : ascii_tables basic_latin.
Proof. repeat split. Qed.

(** C4.  On ["SEO is great. SEO helps."] with the keyword ["SEO"] the
    analysis returns 5 words, 2 sentences and one row, with 2 instances and
    the density shown as [40.00%]. *)
Theorem analyze_seo_example :
  forall U : Unicode,
    ascii_tables U ->
    analyze_content (lit "SEO is great. SEO helps.") [lit "SEO"] =
    Returns (5, 2, [ {| Keyword := lit "SEO";
                        Instances := 2;
                        Density := lit "40.00%" |} ]).
Proof.
  intros U HU.
  rewrite (analyze_content_ascii HU) by reflexivity.
  reflexivity.
Qed.

Lemma analyze_seo_example_witness :
  @analyze_content basic_latin (lit "SEO is great. SEO helps.") [lit "SEO"] =
  Returns (5, 2, [ {| Keyword := lit "SEO";
                      Instances := 2;
                      Density := lit "40.00%" |} ]).
Proof.
  apply (analyze_seo_example basic_latin). repeat split.
Defined.

(** * Properties of the content extractor *)

Lemma node_forall_ind (P : node -> Prop) :
  (forall text, P (NavigableString text)) ->
  (forall name c st contents,
     Forall P contents -> P (Tag name c st contents)) ->
  forall n, P n.
Proof.
  intros Hstring Htag. fix IH 1. intros [text|name c st contents].
  - apply Hstring.
  - apply Htag. induction contents as [|x l IHl]; constructor.
    + apply IH.
    + exact IHl.
Qed.

Lemma find_app_first {A} (p : A -> bool) (a b : list A) :
  List.find p (a ++ b) =
  match List.find p a with
  | Some x => Some x
  | None => List.find p b
  end.
Proof.
  induction a as [|x a IH]; simpl; [reflexivity|].
  destruct (p x); [reflexivity|exact IH].
Qed.

Lemma first_some_tags (p : node -> bool) (l : list node) :
  Forall (fun n => find_node p n = List.find p (tags n)) l ->
  first_some (find_node p) l = List.find p (flat_map tags l).
Proof.
  induction 1 as [|x l Hx _ IH]; simpl; [reflexivity|].
  rewrite find_app_first, Hx, IH. reflexivity.
Qed.

(** [find] below a node is the first match among its tags in document
    order. *)
Lemma find_node_tags (p : node -> bool) (n : node) :
  find_node p n = List.find p (tags n).
Proof.
  induction n as [text|name c st contents IH] using node_forall_ind.
  - reflexivity.
  - cbn [find_node tags List.find].
    destruct (p (Tag name c st contents)); [reflexivity|].
    now apply first_some_tags.
Qed.

Lemma find_tags (p : node -> bool) (page : soup) :
  find p page = List.find p (tags_of page).
Proof.
  unfold find, tags_of. apply first_some_tags.
  apply Forall_forall. intros n _. apply find_node_tags.
Qed.

Lemma find_ext_bool {A} (p q : A -> bool) (l : list A) :
  (forall x, p x = q x) -> List.find p l = List.find q l.
Proof.
  intros Hpq. induction l as [|x l IH]; simpl; [reflexivity|].
  now rewrite Hpq, IH.
Qed.

Lemma existsb_ext_bool {A} (f g : A -> bool) (l : list A) :
  (forall x, f x = g x) -> existsb f l = existsb g l.
Proof.
  intros Hfg. induction l as [|x l IH]; simpl; [reflexivity|].
  now rewrite Hfg, IH.
Qed.

Lemma existsb_orb {A} (f g : A -> bool) (l : list A) :
  existsb (fun x => f x || g x) l = existsb f l || existsb g l.
Proof.
  induction l as [|x l IH]; simpl; [reflexivity|].
  rewrite IH. destruct (f x), (g x), (existsb f l); reflexivity.
Qed.

Section ContentRootProofs.
Context {U : Unicode}.

(** The guard [x and ...] of the lambda adds nothing: the empty string
    contains none of the three words. *)
Lemma content_class_some (x : str) :
  content_class (Some x) =
  contains (str_lower x) (lit "content") ||
  contains (str_lower x) (lit "main") ||
  contains (str_lower x) (lit "article").
Proof.
  destruct x as [|c x]; [|reflexivity].
  cbn [content_class]. rewrite str_lower_empty. reflexivity.
Qed.

Lemma is_content_div_spec (n : node) : is_content_div n = content_div n.
Proof.
  unfold is_content_div, content_div, class_mentions, attr_matches.
  destruct (has_name "div" n); [|reflexivity]. cbn [andb].
  destruct (class_of n) as [values|]; [|reflexivity].
  rewrite content_class_some.
  rewrite (existsb_ext_bool _ _ values content_class_some).
  rewrite !existsb_orb, !existsb_app. cbn [existsb].
  repeat match goal with
         | |- context [existsb ?f values] => destruct (existsb f values)
         end;
  repeat match goal with
         | |- context [contains ?a ?b] => destruct (contains a b)
         end; reflexivity.
Qed.

Lemma main_content_root (page : soup) :
  main_content page = content_root page.
Proof.
  unfold main_content, content_root.
  rewrite !find_tags.
  rewrite (find_ext_bool is_content_div content_div) by apply is_content_div_spec.
  reflexivity.
Qed.
End ContentRootProofs.

(** C3.  With the unwanted tags removed, the content root is the first
    [main] tag of the page in document order; without a [main] tag, the first
    [article] tag; without that too, the first [div] whose class attribute,
    lower-cased, contains ["content"], ["main"] or ["article"]; and when
    there is none of them the text extracted is the empty string. *)
Theorem content_root_priority :
  forall (U : Unicode) (page : soup),
    main_content (remove_unwanted page) = content_root (remove_unwanted page) /\
    extract page =
      match content_root (remove_unwanted page) with
      | Some root => visible_text root
      | None => []
      end.
Proof.
  intros U page. split; [apply main_content_root|].
  unfold extract. now rewrite main_content_root.
Qed.

(** C2, on the code.  A [div] whose class is ["footer"] is not removed:
    ['div.footer'] in the list given to [soup(...)] is compared with tag names,
    and the name of the tag is ["div"].  On the page
    [<main><p>Body</p><div class="footer">Legal</div></main>] the [div] is
    still there after the removal and its text is part of what is
    extracted. *)
Theorem footer_class_is_extracted :
  class_has footer_div "footer" = true /\
  In footer_div (tags_of (remove_unwanted footer_page)) /\
  @extract basic_latin footer_page = lit "Body Legal" /\
  contains (@extract basic_latin footer_page) (lit "Legal") = true.
Proof.
  split; [reflexivity|]. split; [|split; reflexivity].
  cbv. right; right; left. reflexivity.
Qed.

(** C6.  [get_clean_content] returns a string whatever the browser and the
    parser do: the text extracted when they return a page, the empty string
    when they raise. *)
Theorem get_clean_content_returns :
  forall (U : Unicode) (render : str -> outcome soup) (url : str),
    exists text : str,
      fst (get_clean_content render url) = Returns text /\
      (forall page, render url = Returns page -> text = extract page) /\
      (forall e, render url = Raises e -> text = []).
Proof.
  intros U render url. unfold get_clean_content.
  destruct (render url) as [page|e]; cbn [bind fst].
  - exists (extract page). repeat split; congruence.
  - exists []. repeat split; congruence.
Qed.

(** * [analyze_content] and the objects of its caller *)

Lemma update_last (h : store) (items : list pyval)
    (f : list pyval -> list pyval) :
  update (h ++ [items]) (length h) f = h ++ [f items].
Proof.
  induction h as [|x h IH]; simpl; [reflexivity|]. now rewrite IH.
Qed.

Lemma list_item_old (h : store) (items : list pyval) (l : loc)
    (old : list pyval) (i : nat) :
  nth_error h l = Some old ->
  list_item (h ++ [items]) l i = nth_error old i.
Proof.
  intros Hl. unfold list_item.
  rewrite nth_error_app1 by (apply nth_error_Some; congruence).
  now rewrite Hl.
Qed.

Lemma skipn_cons_nth {A} (l : list A) :
  forall i x rest,
    skipn i l = x :: rest ->
    nth_error l i = Some x /\ skipn (S i) l = rest.
Proof.
  induction l as [|y l IH]; intros i x rest H.
  - destruct i; discriminate H.
  - destruct i as [|i].
    + simpl in H. injection H as -> ->. split; reflexivity.
    + simpl in H. apply IH in H. exact H.
Qed.

Lemma skipn_nil_nth {A} (l : list A) :
  forall i, skipn i l = [] -> nth_error l i = None.
Proof.
  induction l as [|y l IH]; intros i H.
  - destruct i; reflexivity.
  - destruct i as [|i]; [discriminate H|]. simpl in *. now apply IH.
Qed.

Section HeapProofs.
Context {U : Unicode}.

(** The loop on the heap: with the keywords at [keywords] never written and
    the rows at the last address, the loop ends within [length rest + 1]
    steps and has appended the rows of the keywords still to read. *)
Lemma for_keywords_in_rows (content : str) (word_count : nat) (h : store)
    (keywords : loc) (K : list str) :
  nth_error h keywords = Some (map PStr K) ->
  forall rest i acc fuel,
    skipn i K = rest ->
    length rest < fuel ->
    for_keywords_in fuel content word_count keywords (length h) i
      (h ++ [acc]) =
    Done (Returns tt)
         (h ++ [acc ++ map PRow (map (row_of content word_count) rest)]).
Proof.
  intros Hk. induction rest as [|keyword rest IH]; intros i acc fuel Hskip Hfuel.
  - destruct fuel as [|fuel]; [inversion Hfuel|].
    cbn [for_keywords_in].
    rewrite (list_item_old _ _ _ _ _ Hk), nth_error_map.
    rewrite (skipn_nil_nth _ _ Hskip). cbn [option_map map].
    now rewrite app_nil_r.
  - destruct fuel as [|fuel]; [inversion Hfuel|].
    apply skipn_cons_nth in Hskip. destruct Hskip as [Hnth Hskip].
    cbn [for_keywords_in].
    rewrite (list_item_old _ _ _ _ _ Hk), nth_error_map, Hnth.
    cbn [option_map]. rewrite density_total.
    unfold list_append. rewrite update_last.
    rewrite (IH (S i) _ fuel Hskip) by (simpl in Hfuel; lia).
    cbn [map]. rewrite <- app_assoc. reflexivity.
Qed.

Lemma analyze_content_in_rows (content : str) (h : store) (keywords : loc)
    (K : list str) (fuel : nat) :
  nth_error h keywords = Some (map PStr K) ->
  length K < fuel ->
  exists word_count sentence_count rows,
    analyze_content content K = Returns (word_count, sentence_count, rows) /\
    analyze_content_in fuel content keywords h =
      Done (Returns (word_count, sentence_count, length h))
           (h ++ [map PRow rows]).
Proof.
  intros Hk Hfuel. destruct content as [|c content'].
  - exists 0, 0, []. split; reflexivity.
  - exists (length (words (c :: content'))),
           (length (sentences (c :: content'))),
           (map (row_of (c :: content') (length (words (c :: content')))) K).
    split; [apply analyze_content_rows; discriminate|].
    unfold analyze_content_in, new_list.
    rewrite (for_keywords_in_rows _ _ h keywords K Hk K 0 [] fuel eq_refl Hfuel).
    reflexivity.
Qed.
End HeapProofs.

(** C9.  A call of [analyze_content] on a text and the list object at
    [keywords] returns the counts and the rows that the text and the items of
    the list determine, in whatever store it runs: two calls with the same
    arguments return the same counts and equal rows.  The call ends (any fuel
    above the number of keywords is enough), and the store it leaves is the
    store it found with one list more, the rows: no object of the caller is
    changed, the list of keywords included. *)
Theorem analyze_content_deterministic :
  forall (U : Unicode) (content : str) (K : list str) (keywords : loc)
         (h1 h2 : store),
    nth_error h1 keywords = Some (map PStr K) ->
    nth_error h2 keywords = Some (map PStr K) ->
    exists word_count sentence_count rows,
      analyze_content content K = Returns (word_count, sentence_count, rows) /\
      forall fuel, length K < fuel ->
        analyze_content_in fuel content keywords h1 =
          Done (Returns (word_count, sentence_count, length h1))
               (h1 ++ [map PRow rows]) /\
        analyze_content_in fuel content keywords h2 =
          Done (Returns (word_count, sentence_count, length h2))
               (h2 ++ [map PRow rows]).
Proof.
  intros U content K keywords h1 h2 H1 H2.
  destruct (analyze_content_in_rows content h1 keywords K (S (length K)) H1
              (Nat.lt_succ_diag_r _))
    as (word_count & sentence_count & rows & Hpure & _).
  exists word_count, sentence_count, rows. split; [exact Hpure|].
  intros fuel Hfuel.
  destruct (analyze_content_in_rows content h1 keywords K fuel H1 Hfuel)
    as (w1 & s1 & r1 & Hp1 & Hrun1).
  destruct (analyze_content_in_rows content h2 keywords K fuel H2 Hfuel)
    as (w2 & s2 & r2 & Hp2 & Hrun2).
  rewrite Hpure in Hp1, Hp2.
  injection Hp1 as <- <- <-. injection Hp2 as <- <- <-.
  split; assumption.
Qed.

(** The second call below runs in the store the first call left. *)
Lemma analyze_content_deterministic_witness :
  exists word_count sentence_count rows,
    @analyze_content basic_latin (lit "SEO tips.") [lit "seo"; lit "tips"] =
      Returns (word_count, sentence_count, rows) /\
    forall fuel, 2 < fuel ->
      @analyze_content_in basic_latin fuel (lit "SEO tips.") 0
        [[PStr (lit "seo"); PStr (lit "tips")]] =
        Done (Returns (word_count, sentence_count, 1))
             ([[PStr (lit "seo"); PStr (lit "tips")]] ++ [map PRow rows]) /\
      @analyze_content_in basic_latin fuel (lit "SEO tips.") 0
        [[PStr (lit "seo"); PStr (lit "tips")];
         map PRow (map (@row_of basic_latin (lit "SEO tips.") 2)
                       [lit "seo"; lit "tips"])] =
        Done (Returns (word_count, sentence_count, 2))
             ([[PStr (lit "seo"); PStr (lit "tips")];
               map PRow (map (@row_of basic_latin (lit "SEO tips.") 2)
                             [lit "seo"; lit "tips"])] ++ [map PRow rows]).
Proof.
  apply (analyze_content_deterministic basic_latin (lit "SEO tips.")
           [lit "seo"; lit "tips"] 0
           [[PStr (lit "seo"); PStr (lit "tips")]]
           [[PStr (lit "seo"); PStr (lit "tips")];
            map PRow (map (@row_of basic_latin (lit "SEO tips.") 2)
                          [lit "seo"; lit "tips"])]);
    reflexivity.
Defined.

(** * Further properties *)

(** ** Occurrences do not overlap *)

Lemma startswith_length (sub s : str) :
  startswith s sub = true -> length sub <= length s.
Proof.
  revert s. induction sub as [|a sub IH]; intros s H; simpl; [lia|].
  destruct s as [|c s]; [discriminate H|].
  simpl in H. apply andb_true_iff in H. destruct H as [_ H].
  apply IH in H. simpl. lia.
Qed.

Lemma count_from_bound (sub s : str) :
  forall skip,
    skip <= length s ->
    count_from sub s skip * length sub + skip <= length s.
Proof.
  induction s as [|c s IH]; intros skip Hskip.
  - simpl in *. lia.
  - cbn [count_from]. destruct skip as [|k].
    + destruct (startswith (c :: s) sub) eqn:Hstart.
      * apply startswith_length in Hstart. simpl in Hstart.
        destruct sub as [|a sub'].
        -- simpl. specialize (IH 0). simpl in IH. lia.
        -- cbn [length] in *.
           replace (S (length sub') - 1) with (length sub') by lia.
           specialize (IH (length sub')). simpl. lia.
      * specialize (IH 0). simpl in *. lia.
    + specialize (IH k). simpl in *. lia.
Qed.

(** The occurrences [str.count] counts are disjoint: together they are no
    longer than the text.  So a keyword that is not blank is counted at most
    [len(content.lower()) / len(kw)] times. *)
Theorem keyword_instances_disjoint :
  forall (U : Unicode) (content keyword : str),
    str_lower (strip keyword) <> [] ->
    keyword_instances content keyword * length (str_lower (strip keyword)) <=
    length (str_lower content).
Proof.
  intros U content keyword Hkw. unfold keyword_instances, count.
  destruct (str_lower (strip keyword)) as [|a kw] eqn:E; [contradiction|].
  pose proof (count_from_bound (a :: kw) (str_lower content) 0). lia.
Qed.

(** ["aa"] is counted once in ["aaa"]. *)
Lemma keyword_instances_disjoint_witness :
  @keyword_instances basic_latin (lit "aaa") (lit "aa") * 2 <= 3 /\
  @keyword_instances basic_latin (lit "aaa") (lit "aa") = 1.
Proof.
  split; [|reflexivity].
  apply (keyword_instances_disjoint basic_latin (lit "aaa") (lit "aa")).
  discriminate.
Defined.

(** ** What the removal does remove *)

Lemma tags_decompose_unwanted (n : node) :
  Forall (fun t => str_in (name_of t) unwanted = false)
         (flat_map tags (decompose_unwanted n)).
Proof.
  induction n as [text|name c st contents IH] using node_forall_ind.
  - constructor.
  - cbn [decompose_unwanted].
    destruct (str_in name unwanted) eqn:Hname; [constructor|].
    cbn [flat_map tags]. rewrite app_nil_r.
    constructor; [exact Hname|].
    induction IH as [|x l Hx _ IHl]; [constructor|].
    cbn [flat_map]. rewrite flat_map_app. apply Forall_app. now split.
Qed.

Lemma items_in_ancestors (n : node) :
  forall ancestors e name,
    In e (items_in ancestors n) -> In name ancestors -> In name (fst e).
Proof.
  induction n as [text|nm c st contents IH] using node_forall_ind;
    intros ancestors e name He Hname.
  - destruct He as [<-|[]]. exact Hname.
  - cbn [items_in] in He. destruct He as [<-|He]; [exact Hname|].
    apply in_flat_map in He. destruct He as (child & Hchild & He).
    rewrite Forall_forall in IH.
    apply (IH child Hchild (nm :: ancestors) e name He). now right.
Qed.

Lemma filter_none {A} (f : A -> bool) (l : list A) :
  (forall x, In x l -> f x = false) -> filter f l = [].
Proof.
  induction l as [|x l IH]; intros H; [reflexivity|].
  cbn [filter]. rewrite (H x (or_introl eq_refl)).
  apply IH. intros y Hy. apply H. now right.
Qed.

Lemma filter_flat_map {A B} (f : B -> bool) (g : A -> list B) (l : list A) :
  filter f (flat_map g l) = flat_map (fun x => filter f (g x)) l.
Proof.
  induction l as [|x l IH]; [reflexivity|].
  cbn [flat_map]. now rewrite filter_app, IH.
Qed.

Lemma flat_map_flat_map {A B C} (f : B -> list C) (g : A -> list B)
    (l : list A) :
  flat_map f (flat_map g l) = flat_map (fun x => flat_map f (g x)) l.
Proof.
  induction l as [|x l IH]; [reflexivity|].
  cbn [flat_map]. now rewrite flat_map_app, IH.
Qed.

Lemma flat_map_ext_forall {A B} (f g : A -> list B) (l : list A) :
  Forall (fun x => f x = g x) l -> flat_map f l = flat_map g l.
Proof.
  induction 1 as [|x l Hx _ IH]; [reflexivity|].
  cbn [flat_map]. now rewrite Hx, IH.
Qed.

(** What is left of a node is what of it is not unwanted, when the node
    does not lie in an unwanted tag. *)
Lemma items_decompose_unwanted (n : node) :
  forall ancestors,
    existsb (fun name => str_in name unwanted) ancestors = false ->
    flat_map (items_in ancestors) (decompose_unwanted n) =
    filter (fun e => negb (unwanted_item e)) (items_in ancestors n).
Proof.
  induction n as [text|name c st contents IH] using node_forall_ind;
    intros ancestors Hclean.
  - cbn [decompose_unwanted flat_map items_in filter].
    unfold unwanted_item. cbn [fst snd]. now rewrite Hclean.
  - cbn [decompose_unwanted items_in filter].
    unfold unwanted_item at 1. cbn [fst snd]. rewrite Hclean. cbn [orb].
    destruct (str_in name unwanted) eqn:Hname; cbn [negb flat_map].
    + symmetry. apply filter_none. intros e He.
      apply in_flat_map in He. destruct He as (child & _ & He).
      apply negb_false_iff, orb_true_iff. left.
      apply existsb_exists. exists name. split; [|exact Hname].
      apply (items_in_ancestors child (name :: ancestors) e name He).
      now left.
    + rewrite app_nil_r. cbn [items_in]. f_equal.
      rewrite flat_map_flat_map, filter_flat_map.
      apply flat_map_ext_forall.
      eapply Forall_impl; [|exact IH].
      intros child Hchild. apply Hchild.
      cbn [existsb]. now rewrite Hname, Hclean.
Qed.

(** After the removal no tag of the page is a [nav], [header], [footer],
    [aside], [script], [style], [form] or [button], and the tags and strings
    left are exactly those of the page that are not such a tag and do not lie
    in one, in their order and with the tags they lie in: each such tag went
    with all it contained, and nothing else went. *)
Theorem unwanted_tags_removed :
  forall page : soup,
    Forall (fun t => str_in (name_of t) unwanted = false)
           (tags_of (remove_unwanted page)) /\
    items_of (remove_unwanted page) =
    filter (fun e => negb (unwanted_item e)) (items_of page).
Proof.
  intros page. split.
  - unfold tags_of, remove_unwanted.
    induction page as [|n page IH]; [constructor|].
    cbn [flat_map]. rewrite flat_map_app. apply Forall_app.
    split; [apply tags_decompose_unwanted|exact IH].
  - unfold items_of, remove_unwanted.
    rewrite flat_map_flat_map, filter_flat_map.
    apply flat_map_ext_forall, Forall_forall.
    intros n _. now apply items_decompose_unwanted.
Qed.

(** [<main>Body<nav>Menu<a>Home</a></nav></main>]: the [nav] goes with its
    string and the tag in it. *)
Example unwanted_tags_removed_example :
  items_of (remove_unwanted
    [Tag (lit "main") None None
       [NavigableString (lit "Body");
        Tag (lit "nav") None None
          [NavigableString (lit "Menu");
           Tag (lit "a") None None [NavigableString (lit "Home")]]]]) =
  [([], TagItem (lit "main") None None);
   ([lit "main"], StringItem (lit "Body"))].
Proof. reflexivity. Qed.

(** ** The model on small inputs *)

Example words_example :
  @words basic_latin (lit "-abc- it's well-known... x_1 ?! 'q' a--b") =
  map lit ["abc"; "it's"; "well-known"; "x_1"; "q"; "a--b"]%string.
Proof. reflexivity. Qed.

Example sentences_example :
  sentences (lit "Really?! Yes... No. ") = map lit ["?!"; "..."; "."]%string.
Proof. reflexivity. Qed.

Example strip_example :
  @strip basic_latin (lit "  content analysis ") = lit "content analysis".
Proof. reflexivity. Qed.

Example phrase_example :
  @keyword_instances basic_latin (lit "Analysis of content. Content analysis!")
    (lit " content analysis") = 1.
Proof. reflexivity. Qed.

Example format_2f_example :
  map format_2f [1 # 3; 200 # 3; 12345 # 10; 0]%Q =
  map lit ["0.33"; "66.67"; "1234.50"; "0.00"]%string.
Proof. reflexivity. Qed.

(** A page that is only a [footer] gives the empty string. *)
Example extract_footer_only :
  @extract basic_latin
    [Tag (lit "footer") None None [NavigableString (lit "Legal")]] = [].
Proof. reflexivity. Qed.

(** [<nav>Menu</nav><main> Body <span style="display: none">x</span></main>]:
    only the visible text of [main] is extracted. *)
Example extract_main_beside_nav :
  @extract basic_latin
    [Tag (lit "nav") None None [NavigableString (lit "Menu")];
     Tag (lit "main") None None
       [NavigableString (lit " Body ");
        Tag (lit "span") None (Some (lit "display: none"))
          [NavigableString (lit "x")]]] =
  lit "Body".
Proof. reflexivity. Qed.

(** A [div] is chosen by its class whatever the case of the letters. *)
Example extract_content_div :
  @extract basic_latin
    [Tag (lit "div") (Some [lit "sidebar"]) None [NavigableString (lit "Ads")];
     Tag (lit "div") (Some [lit "post"; lit "Main-Column"]) None
       [NavigableString (lit "Story")]] =
  lit "Story".
Proof. reflexivity. Qed.

(** * The script around the two functions *)

(** ** [split] *)

Lemma split_from_length (sep s : str) :
  forall cur skip,
    length (split_from sep s cur skip) = S (count_from sep s skip).
Proof.
  induction s as [|c s IH]; intros cur skip; [reflexivity|].
  cbn [split_from count_from]. destruct skip as [|k]; [|apply IH].
  destruct (startswith (c :: s) sep); [|apply IH].
  cbn [length]. now rewrite IH.
Qed.

Lemma split_from_skip (sep pre rest : str) :
  forall cur,
    split_from sep (pre ++ rest) cur (length pre) = split_from sep rest cur 0.
Proof.
  induction pre as [|c pre IH]; intros cur; cbn [app length].
  - destruct rest; reflexivity.
  - cbn [split_from]. apply IH.
Qed.

Lemma startswith_prefix (sep s : str) :
  startswith s sep = true -> s = sep ++ skipn (length sep) s.
Proof.
  revert s. induction sep as [|a sep IH]; intros s H; [reflexivity|].
  destruct s as [|c s]; [discriminate H|].
  cbn [startswith] in H. apply andb_true_iff in H. destruct H as [Hac H].
  apply N.eqb_eq in Hac. subst c.
  cbn [length skipn app]. f_equal. now apply IH.
Qed.

Lemma split_from_not_nil (sep s cur : str) (skip : nat) :
  split_from sep s cur skip <> [].
Proof.
  intros H. apply (f_equal (@length str)) in H.
  rewrite split_from_length in H. discriminate H.
Qed.

Lemma join_cons (sep p : str) (l : list str) :
  l <> [] -> join sep (p :: l) = p ++ sep ++ join sep l.
Proof.
  destruct l; [contradiction|reflexivity].
Qed.

Lemma split_from_join (sep : str) :
  sep <> [] ->
  forall n s cur,
    length s <= n -> join sep (split_from sep s cur 0) = cur ++ s.
Proof.
  intros Hsep. induction n as [|n IH]; intros s cur Hn.
  - destruct s; [|simpl in Hn; lia]. simpl. now rewrite app_nil_r.
  - destruct s as [|c s]; [simpl; now rewrite app_nil_r|].
    cbn [split_from]. destruct (startswith (c :: s) sep) eqn:Hstart.
    + apply startswith_prefix in Hstart.
      destruct sep as [|a sep']; [contradiction|].
      cbn [length skipn app] in Hstart. injection Hstart as Hc Hs.
      cbn [length]. replace (S (length sep') - 1) with (length sep') by lia.
      rewrite Hs at 1. rewrite split_from_skip.
      rewrite join_cons by apply split_from_not_nil.
      rewrite IH.
      * cbn [app]. rewrite Hs at 2. subst c. reflexivity.
      * simpl in Hn. rewrite length_skipn. lia.
    + rewrite IH by (simpl in Hn; lia).
      rewrite <- app_assoc. reflexivity.
Qed.

(** [sep.join(s.split(sep))] is [s], and the pieces are one more than the
    occurrences [s.count(sep)] counts. *)
Theorem split_join_roundtrip :
  forall s sep : str,
    sep <> [] ->
    exists pieces,
      split s sep = Returns pieces /\
      join sep pieces = s /\
      length pieces = S (count s sep).
Proof.
  intros s sep Hsep. destruct sep as [|a sep'] eqn:E; [contradiction|].
  exists (split_from (a :: sep') s [] 0). split; [reflexivity|]. split.
  - now rewrite (split_from_join (a :: sep') Hsep (length s)).
  - apply split_from_length.
Qed.

Lemma split_join_roundtrip_witness :
  exists pieces,
    split (lit "https://a//b") (lit "//") = Returns pieces /\
    join (lit "//") pieces = lit "https://a//b" /\
    length pieces = 3.
Proof.
  apply (split_join_roundtrip (lit "https://a//b") (lit "//")). discriminate.
Defined.

Lemma startswith_nil (s : str) : startswith s [] = true.
Proof. destruct s; reflexivity. Qed.

Lemma split_char_free (c : char) (s : str) :
  forall cur,
    ~ In c cur ->
    Forall (fun p => ~ In c p) (split_from [c] s cur 0).
Proof.
  induction s as [|x s IH]; intros cur Hcur; [now repeat constructor|].
  cbn [split_from startswith length Nat.sub]. rewrite startswith_nil.
  destruct (char_eqb c x) eqn:Hx; cbn [andb].
  - constructor; [exact Hcur|]. apply IH. intros [].
  - apply IH. intros Hin. apply in_app_or in Hin.
    destruct Hin as [Hin|[Hin|[]]]; [now apply Hcur|].
    subst x. unfold char_eqb in Hx. now rewrite N.eqb_refl in Hx.
Qed.

Lemma split_char_trailing (c : char) (s : str) :
  forall cur,
    exists l, split_from [c] (s ++ [c]) cur 0 = l ++ [[]].
Proof.
  induction s as [|x s IH]; intros cur.
  - exists [cur]. cbn. unfold char_eqb. rewrite N.eqb_refl. reflexivity.
  - cbn [app split_from startswith length Nat.sub]. rewrite startswith_nil.
    destruct (char_eqb c x); cbn [andb].
    + destruct (IH []) as [l Hl]. exists (cur :: l). now rewrite Hl.
    + apply IH.
Qed.

(** ** [strip] and the list of keywords *)

Section StripProofs.
Context {U : Unicode}.

Lemma lstrip_decomp (s : str) :
  exists pre, s = pre ++ lstrip s /\ forallb isspace pre = true.
Proof.
  induction s as [|c s IH]; [now exists []|].
  cbn [lstrip]. destruct (isspace c) eqn:Hc.
  - destruct IH as (pre & Hs & Hpre). exists (c :: pre). split.
    + cbn [app]. now rewrite <- Hs.
    + cbn [forallb]. now rewrite Hc.
  - now exists [].
Qed.

Lemma lstrip_starts (s : str) : lstrip s = [] \/ starts_clean (lstrip s).
Proof.
  induction s as [|c s IH]; [now left|].
  cbn [lstrip]. destruct (isspace c) eqn:Hc; [exact IH|].
  right. now exists c, s.
Qed.

Lemma lstrip_clean (s : str) : starts_clean s -> lstrip s = s.
Proof.
  intros (c & t & -> & Hc). cbn [lstrip]. now rewrite Hc.
Qed.

Lemma lstrip_incl (s : str) (c : char) : In c (lstrip s) -> In c s.
Proof.
  destruct (lstrip_decomp s) as (pre & Hs & _). intros Hin.
  rewrite Hs. apply in_or_app. now right.
Qed.

Lemma strip_incl (s : str) (c : char) : In c (strip s) -> In c s.
Proof.
  unfold strip, rstrip. intros Hin.
  apply in_rev, lstrip_incl, in_rev in Hin. now apply lstrip_incl.
Qed.

Lemma strip_trimmed (s : str) : trimmed (strip s).
Proof.
  unfold strip, rstrip.
  destruct (lstrip_starts s) as [Hnil|Hclean].
  - rewrite Hnil. now left.
  - destruct (lstrip_starts (rev (lstrip s))) as [Hnil|Hclean'].
    + rewrite Hnil. now left.
    + right. split; [|now rewrite rev_involutive].
      destruct (lstrip_decomp (rev (lstrip s))) as (pre & Hrev & _).
      apply (f_equal (@rev char)) in Hrev.
      rewrite rev_involutive, rev_app_distr in Hrev.
      destruct Hclean as (c & t & Ht & Hc).
      destruct Hclean' as (c' & t' & Ht' & _).
      destruct (rev (lstrip (rev (lstrip s)))) as [|y u] eqn:E.
      * apply (f_equal (@rev char)) in E. rewrite rev_involutive in E.
        rewrite Ht' in E. destruct t'; discriminate E.
      * exists y, u. split; [reflexivity|].
        rewrite Ht in Hrev. cbn [app] in Hrev. now injection Hrev as <- _.
Qed.

Lemma strip_of_trimmed (s : str) : trimmed s -> strip s = s.
Proof.
  intros [->|[Hs Hr]]; [reflexivity|].
  unfold strip, rstrip.
  now rewrite (lstrip_clean s Hs), (lstrip_clean (rev s) Hr), rev_involutive.
Qed.

Lemma strip_idempotent (s : str) : strip (strip s) = strip s.
Proof. apply strip_of_trimmed, strip_trimmed. Qed.

Lemma keywords_list_of_split (keywords : str) :
  keywords_list_of keywords =
  Returns (map strip (split_from (lit ",") keywords [] 0)).
Proof. reflexivity. Qed.

Lemma keywords_list_stripped (keywords : str) :
  Forall (fun k => strip k = k)
         (map strip (split_from (lit ",") keywords [] 0)).
Proof.
  apply Forall_map, Forall_forall. intros p _. apply strip_idempotent.
Qed.

Lemma tool_step_stripped (text_content : str) (word_count : nat)
    (results : list KeywordRecord) (keyword : str) :
  strip keyword = keyword ->
  tool_step text_content word_count results keyword =
  keyword_step text_content word_count results keyword.
Proof.
  intros Hk. unfold tool_step, keyword_step, keyword_instances.
  now rewrite Hk.
Qed.

Lemma for_tool_keywords_stripped (text_content : str) (word_count : nat)
    (keywords_list : list str) :
  Forall (fun k => strip k = k) keywords_list ->
  forall results,
    for_tool_keywords text_content word_count keywords_list results =
    for_keywords text_content word_count keywords_list results.
Proof.
  induction 1 as [|k l Hk _ IH]; intros results; [reflexivity|].
  cbn [for_tool_keywords for_keywords].
  rewrite (tool_step_stripped _ _ _ _ Hk).
  destruct (keyword_step text_content word_count results k); [apply IH|].
  reflexivity.
Qed.
End StripProofs.

(** The list of keywords made from the text field is never empty: it has one
    entry more than the field has commas (an empty field between, before or
    after commas is an entry too); no entry contains a comma, and every entry
    is stripped already, so that [strip] leaves it as it is. *)
Theorem keywords_list_shape :
  forall (U : Unicode) (keywords : str),
    exists keywords_list,
      keywords_list_of keywords = Returns keywords_list /\
      length keywords_list = S (count keywords (lit ",")) /\
      Forall (fun k => strip k = k /\ ~ In 44%N k) keywords_list.
Proof.
  intros U keywords.
  exists (map strip (split_from (lit ",") keywords [] 0)).
  split; [reflexivity|]. split.
  - rewrite length_map. apply split_from_length.
  - apply Forall_map.
    pose proof (split_char_free 44%N keywords [] (fun H => H)) as Hfree.
    eapply Forall_impl; [|exact Hfree].
    intros p Hp. split; [apply strip_idempotent|].
    intros Hin. now apply Hp, strip_incl.
Qed.

(** A comma at the end of the keywords field makes a last keyword that is
    empty, and for a non-empty text [analyze_content] gives it a last row
    whose instances are [len(content.lower()) + 1]. *)
Theorem trailing_comma_row :
  forall (U : Unicode) (content keywords : str),
    content <> [] ->
    exists keywords_list word_count sentence_count rows row,
      keywords_list_of (keywords ++ lit ",") = Returns keywords_list /\
      analyze_content content keywords_list =
        Returns (word_count, sentence_count, rows ++ [row]) /\
      Keyword row = [] /\
      Instances row = S (length (str_lower content)).
Proof.
  intros U content keywords Hne.
  destruct (split_char_trailing 44%N keywords []) as [l Hl].
  exists (map strip l ++ [[]]),
         (length (words content)), (length (sentences content)),
         (map (row_of content (length (words content))) (map strip l)),
         (row_of content (length (words content)) []).
  split.
  - rewrite keywords_list_of_split.
    apply f_equal.
    transitivity (map strip (l ++ [[]])); [apply f_equal; exact Hl|].
    apply map_app.
  - split.
    + rewrite (analyze_content_rows content _ Hne), map_app. reflexivity.
    + split; [reflexivity|].
      cbn [row_of Instances]. now apply blank_keyword_count.
Qed.

Lemma trailing_comma_row_witness :
  exists keywords_list word_count sentence_count rows row,
    @keywords_list_of basic_latin (lit "seo" ++ lit ",") =
      Returns keywords_list /\
    @analyze_content basic_latin (lit "SEO tips") keywords_list =
      Returns (word_count, sentence_count, rows ++ [row]) /\
    Keyword row = [] /\
    Instances row = 9.
Proof.
  apply (trailing_comma_row basic_latin (lit "SEO tips") (lit "seo")).
  discriminate.
Defined.

(** The tab "Keyword Tool" repeats the loop of [analyze_content] without
    [strip]; as the keywords of the list are stripped already, it shows the
    word count and the rows [analyze_content] returns for the same text and
    keywords, and the sum of their instances. *)
Theorem keyword_tool_agrees :
  forall (U : Unicode) (text_content tool_keywords : str),
    text_content <> [] ->
    tool_keywords <> [] ->
    exists keywords_list word_count sentence_count rows,
      keywords_list_of tool_keywords = Returns keywords_list /\
      analyze_content text_content keywords_list =
        Returns (word_count, sentence_count, rows) /\
      keyword_tool_tab text_content tool_keywords true =
        ([st_success (lit "Keyword analysis complete! " ++ party);
          st_subheader (chart ++ lit " Analysis Results");
          st_metric (lit "Total Words") word_count;
          st_metric (lit "Total Keywords Found") (sum (map Instances rows));
          st_subheader (key_emoji ++ lit " Keyword Analysis");
          st_dataframe rows;
          st_download_button (inbox ++ lit " Download Keyword Analysis")
            (Csv rows) (lit "keyword_analysis.csv")],
         Returns tt).
Proof.
  intros U text_content tool_keywords Htext Hkw.
  pose proof (keywords_list_stripped tool_keywords) as Hshape.
  pose proof (keywords_list_of_split tool_keywords) as Hkl.
  set (kl := map strip (split_from (lit ",") tool_keywords [] 0)) in *.
  exists kl, (length (words text_content)),
         (length (sentences text_content)),
         (map (row_of text_content (length (words text_content))) kl).
  split; [exact Hkl|].
  split; [now apply analyze_content_rows|].
  unfold keyword_tool_tab.
  destruct text_content as [|c t]; [contradiction|].
  destruct tool_keywords as [|c' t']; [contradiction|].
  cbn [nonempty andb]. rewrite Hkl. cbn [sbind lift].
  rewrite for_tool_keywords_stripped by exact Hshape.
  rewrite for_keywords_rows. reflexivity.
Qed.

Lemma keyword_tool_agrees_witness :
  exists keywords_list word_count sentence_count rows,
    @keywords_list_of basic_latin (lit " seo ,TIPS") = Returns keywords_list /\
    @analyze_content basic_latin (lit "SEO tips SEO") keywords_list =
      Returns (word_count, sentence_count, rows) /\
    @keyword_tool_tab basic_latin (lit "SEO tips SEO") (lit " seo ,TIPS") true =
      ([st_success (lit "Keyword analysis complete! " ++ party);
        st_subheader (chart ++ lit " Analysis Results");
        st_metric (lit "Total Words") word_count;
        st_metric (lit "Total Keywords Found") (sum (map Instances rows));
        st_subheader (key_emoji ++ lit " Keyword Analysis");
        st_dataframe rows;
        st_download_button (inbox ++ lit " Download Keyword Analysis")
          (Csv rows) (lit "keyword_analysis.csv")],
       Returns tt).
Proof.
  apply (keyword_tool_agrees basic_latin (lit "SEO tips SEO")
           (lit " seo ,TIPS")); discriminate.
Defined.

(** ** The name of the downloaded text *)

Lemma item_last_app (l : list str) (x : str) :
  item_last (l ++ [x]) = Returns x.
Proof.
  unfold item_last. now rewrite rev_app_distr.
Qed.

Lemma item_last_returns (l : list str) :
  l <> [] -> exists x, item_last l = Returns x.
Proof.
  intros Hl. destruct (exists_last Hl) as (front & x & ->).
  exists x. apply item_last_app.
Qed.

Lemma split_slash_first (s cur : str) :
  ~ In 47%N cur ->
  exists host rest,
    split_from [47%N] s cur 0 = host :: rest /\ ~ In 47%N host.
Proof.
  intros Hcur.
  pose proof (split_char_free 47%N s cur Hcur) as Hfree.
  rewrite Forall_forall in Hfree.
  destruct (split_from [47%N] s cur 0) as [|host rest] eqn:E;
    [now apply split_from_not_nil in E|].
  exists host, rest. split; [reflexivity|]. apply Hfree.
  eapply eq_ind_r with (P := fun l => In host l); [|exact E]. now left.
Qed.

Lemma cleaned_content_name_returns (url : str) :
  exists host,
    cleaned_content_name url = Returns (host ++ lit "_cleaned_content.txt") /\
    ~ In 47%N host.
Proof.
  unfold cleaned_content_name.
  change (split url (lit "//"))
    with (Returns (split_from (lit "//") url [] 0)).
  cbn [bind].
  destruct (item_last_returns (split_from (lit "//") url [] 0)
              (split_from_not_nil _ _ _ _)) as [tail Htail].
  rewrite Htail. cbn [bind].
  change (split tail (lit "/"))
    with (Returns (split_from [47%N] tail [] 0)).
  cbn [bind].
  destruct (split_slash_first tail [] (fun H => H)) as (host & rest & E & Hhost).
  rewrite E. cbn [item_first bind]. now exists host.
Qed.

(** The file name offered for the cleaned text is always there (no index is
    out of range, whatever the URL), it ends with [_cleaned_content.txt], and
    it has no slash in it. *)
Theorem cleaned_content_name_no_slash :
  forall url : str,
    exists host,
      cleaned_content_name url = Returns (host ++ lit "_cleaned_content.txt") /\
      ~ In 47%N (host ++ lit "_cleaned_content.txt").
Proof.
  intros url.
  destruct (cleaned_content_name_returns url) as (host & Hname & Hhost).
  exists host. split; [exact Hname|].
  intros Hin. apply in_app_or in Hin. destruct Hin as [Hin|Hin].
  - now apply Hhost.
  - vm_compute in Hin.
    repeat (destruct Hin as [Hin|Hin]; [discriminate Hin|]). exact Hin.
Qed.

Lemma split_slashes_prefix (pre rest : str) :
  ~ In 47%N pre ->
  forall cur,
    split_from (lit "//") (pre ++ lit "//" ++ rest) cur 0 =
    (cur ++ pre) :: split_from (lit "//") rest [] 0.
Proof.
  induction pre as [|x pre IH]; intros Hpre cur.
  - rewrite app_nil_r. destruct rest; reflexivity.
  - assert (Hx : char_eqb 47%N x = false).
    { unfold char_eqb. apply N.eqb_neq. intros Heq. apply Hpre. now left. }
    change (split_from (lit "//") ((x :: pre) ++ lit "//" ++ rest) cur 0)
      with (if char_eqb 47%N x &&
               startswith (pre ++ lit "//" ++ rest) [47%N]
            then cur :: split_from (lit "//") (pre ++ lit "//" ++ rest) [] 1
            else split_from (lit "//") (pre ++ lit "//" ++ rest)
                   (cur ++ [x]) 0).
    rewrite Hx. cbn [andb].
    rewrite IH by (intros H; apply Hpre; now right).
    now rewrite <- app_assoc.
Qed.

Lemma split_from_absent (sep s : str) :
  contains s sep = false ->
  forall cur, split_from sep s cur 0 = [cur ++ s].
Proof.
  induction s as [|c s IH]; intros Hno cur.
  - now rewrite app_nil_r.
  - cbn [contains] in Hno. apply orb_false_iff in Hno.
    destruct Hno as [Hstart Hrest].
    cbn [split_from]. rewrite Hstart, IH by exact Hrest.
    now rewrite <- app_assoc.
Qed.

Lemma split_slash_host (host tail : str) :
  ~ In 47%N host ->
  tail = [] \/ (exists t, tail = 47%N :: t) ->
  forall cur,
    exists rest, split_from [47%N] (host ++ tail) cur 0 = (cur ++ host) :: rest.
Proof.
  induction host as [|x host IH]; intros Hhost Htail cur.
  - rewrite app_nil_r. destruct Htail as [->|[t ->]].
    + now exists [].
    + cbn [app split_from startswith length Nat.sub].
      unfold char_eqb. rewrite N.eqb_refl, startswith_nil. cbn [andb].
      eauto.
  - assert (Hx : char_eqb 47%N x = false).
    { unfold char_eqb. apply N.eqb_neq. intros Heq. apply Hhost. now left. }
    cbn [app split_from startswith length Nat.sub].
    rewrite Hx. cbn [andb].
    destruct (IH (fun H => Hhost (or_intror H)) Htail (cur ++ [x]))
      as [rest Hrest].
    exists rest. rewrite Hrest. now rewrite <- app_assoc.
Qed.

(** For a URL [scheme://host], [scheme://host/] or [scheme://host/path]
    with no second [//] the file name is [host_cleaned_content.txt]. *)
Theorem cleaned_content_name_host :
  forall pre host tail : str,
    ~ In 47%N pre ->
    ~ In 47%N host ->
    tail = [] \/ (exists t, tail = 47%N :: t) ->
    contains (host ++ tail) (lit "//") = false ->
    cleaned_content_name (pre ++ lit "//" ++ host ++ tail) =
    Returns (host ++ lit "_cleaned_content.txt").
Proof.
  intros pre host tail Hpre Hhost Htail Hno. unfold cleaned_content_name.
  change (split (pre ++ lit "//" ++ host ++ tail) (lit "//"))
    with (Returns (split_from (lit "//")
                     (pre ++ lit "//" ++ host ++ tail) [] 0)).
  rewrite (split_slashes_prefix pre (host ++ tail) Hpre).
  rewrite (split_from_absent _ _ Hno). cbn [bind app].
  change (item_last [pre; host ++ tail]) with (Returns (host ++ tail)).
  cbn [bind].
  change (split (host ++ tail) (lit "/"))
    with (Returns (split_from [47%N] (host ++ tail) [] 0)).
  destruct (split_slash_host host tail Hhost Htail []) as [rest Hrest].
  rewrite Hrest. reflexivity.
Qed.

Lemma cleaned_content_name_host_witness :
  cleaned_content_name
    (lit "https:" ++ lit "//" ++ lit "example.com" ++ lit "/blog/post") =
  Returns (lit "example.com" ++ lit "_cleaned_content.txt").
Proof.
  apply (cleaned_content_name_host (lit "https:") (lit "example.com")
           (lit "/blog/post")).
  - vm_compute. intuition discriminate.
  - vm_compute. intuition discriminate.
  - right. eexists. reflexivity.
  - reflexivity.
Defined.

(** ** The tab "Single URL Analyzer" *)

Section SingleUrlProofs.
Context {U : Unicode}.
Variable render : str -> outcome soup.

Lemma call_get_clean_content_page (url : str) (page : soup) :
  render url = Returns page ->
  call_get_clean_content render url = ([], Returns (extract page)).
Proof.
  intros H. unfold call_get_clean_content, get_clean_content.
  now rewrite H.
Qed.

Lemma call_get_clean_content_raises (url : str) (e : exn) :
  render url = Raises e ->
  call_get_clean_content render url =
  ([st_error (lit "Error processing " ++ url ++ lit ": " ++ exn_message e)],
   Returns []).
Proof.
  intros H. unfold call_get_clean_content, get_clean_content.
  now rewrite H.
Qed.

Lemma single_url_tab_started (url keywords : str) (show_content : bool) :
  url <> [] -> keywords <> [] ->
  single_url_tab render url keywords true show_content =
  (content <~ call_get_clean_content render url ;;
   if nonempty content then
     r <~ lift (analyze_content content
                  (map strip (split_from (lit ",") keywords [] 0))) ;;
     let '(word_count, sentence_count, analysis) := r in
     _ <~ emit [st_success (lit "Analysis complete! " ++ party);
                st_subheader (chart ++ lit " Analysis Results");
                st_metric (lit "Total Words") word_count;
                st_metric (lit "Total Sentences") sentence_count;
                st_subheader (key_emoji ++ lit " Keyword Analysis");
                st_dataframe analysis] ;;
     _ <~ emit (if show_content
                then [st_text_area (lit "Extracted Content") content]
                else []) ;;
     file_name <~ lift (cleaned_content_name url) ;;
     emit [st_download_button (inbox ++ lit " Download Cleaned Content")
             (Text content) file_name;
           st_download_button (chart ++ lit " Download Keyword Analysis")
             (Csv analysis) (lit "keyword_analysis.csv")]
   else
     emit [st_warning
             (lit "No content found on the page. Please check the URL.")]).
Proof.
  intros Hurl Hkw. unfold single_url_tab.
  destruct url as [|a url']; [contradiction|].
  destruct keywords as [|b keywords']; [contradiction|].
  cbn [nonempty andb]. rewrite keywords_list_of_split.
  unfold lift at 1. cbn [sbind app].
  match goal with
  | |- (let (_, _) := ?X in _) = _ => destruct X
  end.
  reflexivity.
Qed.

Lemma single_url_tab_no_content (url keywords : str) (show_content : bool)
    (shown : list ui) :
  url <> [] -> keywords <> [] ->
  call_get_clean_content render url = (shown, Returns []) ->
  single_url_tab render url keywords true show_content =
  (shown ++
   [st_warning (lit "No content found on the page. Please check the URL.")],
   Returns tt).
Proof.
  intros Hurl Hkw Hcall.
  rewrite (single_url_tab_started url keywords show_content Hurl Hkw), Hcall.
  reflexivity.
Qed.

Lemma single_url_tab_content (url keywords : str) (show_content : bool)
    (page : soup) :
  url <> [] -> keywords <> [] ->
  render url = Returns page ->
  extract page <> [] ->
  exists file_name,
    cleaned_content_name url = Returns file_name /\
    single_url_tab render url keywords true show_content =
    ([st_success (lit "Analysis complete! " ++ party);
      st_subheader (chart ++ lit " Analysis Results");
      st_metric (lit "Total Words") (length (words (extract page)));
      st_metric (lit "Total Sentences") (length (sentences (extract page)));
      st_subheader (key_emoji ++ lit " Keyword Analysis");
      st_dataframe
        (map (row_of (extract page) (length (words (extract page))))
             (map strip (split_from (lit ",") keywords [] 0)))] ++
     (if show_content
      then [st_text_area (lit "Extracted Content") (extract page)]
      else []) ++
     [st_download_button (inbox ++ lit " Download Cleaned Content")
        (Text (extract page)) file_name;
      st_download_button (chart ++ lit " Download Keyword Analysis")
        (Csv (map (row_of (extract page) (length (words (extract page))))
                  (map strip (split_from (lit ",") keywords [] 0))))
        (lit "keyword_analysis.csv")],
     Returns tt).
Proof.
  intros Hurl Hkw Hpage Hcontent.
  destruct (cleaned_content_name_returns url) as (host & Hname & _).
  exists (host ++ lit "_cleaned_content.txt"). split; [exact Hname|].
  rewrite (single_url_tab_started url keywords show_content Hurl Hkw).
  rewrite (call_get_clean_content_page url page Hpage). cbn [sbind].
  destruct (extract page) as [|c content'] eqn:E; [contradiction|].
  cbn [nonempty]. rewrite (analyze_content_rows (c :: content')) by discriminate.
  cbn [lift sbind emit]. rewrite Hname.
  destruct show_content; reflexivity.
Qed.
End SingleUrlProofs.

(** When the page cannot be fetched the tab shows the error of
    [get_clean_content] and then the warning that no content was found; when
    the page is there but nothing is extracted from it, the warning alone.
    In both cases nothing is analysed. *)
Theorem single_url_without_content :
  forall (U : Unicode) (render : str -> outcome soup) (url keywords : str)
         (show_content : bool),
    url <> [] -> keywords <> [] ->
    (forall e, render url = Raises e ->
       single_url_tab render url keywords true show_content =
       ([st_error (lit "Error processing " ++ url ++ lit ": " ++ exn_message e);
         st_warning (lit "No content found on the page. Please check the URL.")],
        Returns tt)) /\
    (forall page, render url = Returns page -> extract page = [] ->
       single_url_tab render url keywords true show_content =
       ([st_warning (lit "No content found on the page. Please check the URL.")],
        Returns tt)).
Proof.
  intros U render url keywords show_content Hurl Hkw. split.
  - intros e He.
    apply (single_url_tab_no_content render url keywords show_content
             _ Hurl Hkw (call_get_clean_content_raises render url e He)).
  - intros page Hpage Hempty.
    pose proof (call_get_clean_content_page render url page Hpage) as Hcall.
    rewrite Hempty in Hcall.
    apply (single_url_tab_no_content render url keywords show_content
             _ Hurl Hkw Hcall).
Qed.

Lemma single_url_without_content_witness :
  (forall e, sample_render (lit "https://example.org") = Raises e ->
     @single_url_tab basic_latin sample_render (lit "https://example.org")
       (lit "seo") true false =
     ([st_error (lit "Error processing " ++ lit "https://example.org" ++
                 lit ": " ++ exn_message e);
       st_warning (lit "No content found on the page. Please check the URL.")],
      Returns tt)) /\
  (forall page, sample_render (lit "https://example.org") = Returns page ->
     @extract basic_latin page = [] ->
     @single_url_tab basic_latin sample_render (lit "https://example.org")
       (lit "seo") true false =
     ([st_warning (lit "No content found on the page. Please check the URL.")],
      Returns tt)).
Proof.
  apply (single_url_without_content basic_latin sample_render
           (lit "https://example.org") (lit "seo") false); discriminate.
Defined.

(** When text is extracted from the page the tab shows the word and sentence
    counts of that text and a table with one row per keyword of the field, in
    the order of the field, and offers the text and the table for download;
    the name of the text file is there for every URL. *)
Theorem single_url_analysis :
  forall (U : Unicode) (render : str -> outcome soup) (url keywords : str)
         (show_content : bool) (page : soup),
    url <> [] -> keywords <> [] ->
    render url = Returns page ->
    extract page <> [] ->
    exists keywords_list rows file_name,
      keywords_list_of keywords = Returns keywords_list /\
      map Keyword rows = keywords_list /\
      analyze_content (extract page) keywords_list =
        Returns (length (words (extract page)),
                 length (sentences (extract page)), rows) /\
      cleaned_content_name url = Returns file_name /\
      single_url_tab render url keywords true show_content =
      ([st_success (lit "Analysis complete! " ++ party);
        st_subheader (chart ++ lit " Analysis Results");
        st_metric (lit "Total Words") (length (words (extract page)));
        st_metric (lit "Total Sentences") (length (sentences (extract page)));
        st_subheader (key_emoji ++ lit " Keyword Analysis");
        st_dataframe rows] ++
       (if show_content
        then [st_text_area (lit "Extracted Content") (extract page)]
        else []) ++
       [st_download_button (inbox ++ lit " Download Cleaned Content")
          (Text (extract page)) file_name;
        st_download_button (chart ++ lit " Download Keyword Analysis")
          (Csv rows) (lit "keyword_analysis.csv")],
       Returns tt).
Proof.
  intros U render url keywords show_content page Hurl Hkw Hpage Hcontent.
  destruct (single_url_tab_content render url keywords show_content page
              Hurl Hkw Hpage Hcontent) as (file_name & Hname & Htab).
  exists (map strip (split_from (lit ",") keywords [] 0)),
         (map (row_of (extract page) (length (words (extract page))))
              (map strip (split_from (lit ",") keywords [] 0))),
         file_name.
  split; [apply keywords_list_of_split|].
  split; [rewrite map_map; apply map_id|].
  split; [now apply analyze_content_rows|].
  split; [exact Hname|exact Htab].
Qed.

Lemma single_url_analysis_witness :
  exists keywords_list rows file_name,
    @keywords_list_of basic_latin (lit "seo, tips") = Returns keywords_list /\
    map Keyword rows = keywords_list /\
    @analyze_content basic_latin (@extract basic_latin sample_page)
      keywords_list =
      Returns (length (@words basic_latin (@extract basic_latin sample_page)),
               length (sentences (@extract basic_latin sample_page)), rows) /\
    cleaned_content_name (lit "https://example.com/blog") = Returns file_name /\
    @single_url_tab basic_latin sample_render (lit "https://example.com/blog")
      (lit "seo, tips") true true =
    ([st_success (lit "Analysis complete! " ++ party);
      st_subheader (chart ++ lit " Analysis Results");
      st_metric (lit "Total Words")
        (length (@words basic_latin (@extract basic_latin sample_page)));
      st_metric (lit "Total Sentences")
        (length (sentences (@extract basic_latin sample_page)));
      st_subheader (key_emoji ++ lit " Keyword Analysis");
      st_dataframe rows] ++
     (if true
      then [st_text_area (lit "Extracted Content")
              (@extract basic_latin sample_page)]
      else []) ++
     [st_download_button (inbox ++ lit " Download Cleaned Content")
        (Text (@extract basic_latin sample_page)) file_name;
      st_download_button (chart ++ lit " Download Keyword Analysis")
        (Csv rows) (lit "keyword_analysis.csv")],
     Returns tt).
Proof.
  apply (single_url_analysis basic_latin sample_render
           (lit "https://example.com/blog") (lit "seo, tips") true
           sample_page); [discriminate|discriminate|reflexivity|discriminate].
Defined.

(** The tab never ends with an exception that escapes the script, whatever is
    typed in and whatever the browser does: the failures of the browser are
    caught in [get_clean_content], and the analysis and the file name cannot
    fail. *)
Theorem single_url_tab_never_raises :
  forall (U : Unicode) (render : str -> outcome soup) (url keywords : str)
         (clicked show_content : bool),
    snd (single_url_tab render url keywords clicked show_content) = Returns tt.
Proof.
  intros U render url keywords clicked show_content.
  destruct clicked; [|reflexivity].
  destruct url as [|a url']; [reflexivity|].
  destruct keywords as [|b keywords']; [reflexivity|].
  destruct (render (a :: url')) as [page|e] eqn:Hrender.
  - destruct (extract page) as [|c content'] eqn:E.
    + pose proof (call_get_clean_content_page render _ page Hrender) as Hcall.
      rewrite E in Hcall.
      now rewrite (single_url_tab_no_content render (a :: url') (b :: keywords')
                     show_content [] ltac:(discriminate) ltac:(discriminate) Hcall).
    + destruct (single_url_tab_content render (a :: url') (b :: keywords')
                  show_content page ltac:(discriminate) ltac:(discriminate)
                  Hrender ltac:(rewrite E; discriminate))
        as (file_name & _ & Htab).
      now rewrite Htab.
  - now rewrite (single_url_tab_no_content render (a :: url') (b :: keywords')
                   show_content _ ltac:(discriminate) ltac:(discriminate)
                   (call_get_clean_content_raises render _ e Hrender)).
Qed.

(** ** The tab "Bulk Analyzer" *)

Lemma str_eqb_eq (a b : str) : str_eqb a b = true <-> a = b.
Proof.
  revert b. induction a as [|x a IH]; intros [|y b]; cbn [str_eqb];
    try (split; [discriminate|discriminate]); [now split|].
  rewrite andb_true_iff, IH. unfold char_eqb. rewrite N.eqb_eq.
  split; [intros [-> ->]; reflexivity|intros H; injection H as -> ->; now split].
Qed.

Lemma str_eqb_refl (a : str) : str_eqb a a = true.
Proof. now apply str_eqb_eq. Qed.

Lemma str_eqb_neq (a b : str) : a <> b -> str_eqb a b = false.
Proof.
  intros H. destruct (str_eqb a b) eqn:E; [|reflexivity].
  now apply str_eqb_eq in E.
Qed.

Lemma dict_get_set (d : dict) (k k' : str) (v : cell) :
  dict_get (dict_set d k v) k' =
  if str_eqb k k' then Some v else dict_get d k'.
Proof.
  induction d as [|[k1 v1] d IH]; [reflexivity|].
  cbn [dict_set]. destruct (str_eqb k1 k) eqn:E1.
  - apply str_eqb_eq in E1. subst k1. cbn [dict_get].
    destruct (str_eqb k k'); reflexivity.
  - cbn [dict_get]. rewrite IH.
    destruct (str_eqb k1 k') eqn:E2; [|reflexivity].
    destruct (str_eqb k k') eqn:E3; [|reflexivity].
    apply str_eqb_eq in E2, E3. subst. now rewrite str_eqb_refl in E1.
Qed.

(** After a run of [set]s the value of a key is that of the last [set] of the
    key, or else the value it had. *)
Lemma dict_get_update (items : list (str * cell)) (k : str) :
  forall d,
    dict_get (dict_update d items) k =
    fold_left (fun acc kv => if str_eqb (fst kv) k then Some (snd kv) else acc)
              items (dict_get d k).
Proof.
  unfold dict_update.
  induction items as [|[k1 v1] items IH]; intros d; [reflexivity|].
  cbn [fold_left fst snd]. now rewrite IH, dict_get_set.
Qed.

Lemma dict_set_keys (d : dict) (k : str) (v : cell) (x : str) :
  In x (map fst (dict_set d k v)) <-> In x (map fst d) \/ x = k.
Proof.
  induction d as [|[k1 v1] d IH]; cbn [dict_set map fst In].
  - intuition.
  - destruct (str_eqb k1 k) eqn:E; cbn [map fst In].
    + apply str_eqb_eq in E. subst. intuition.
    + rewrite IH. intuition.
Qed.

Lemma dict_set_nodup (d : dict) (k : str) (v : cell) :
  NoDup (map fst d) -> NoDup (map fst (dict_set d k v)).
Proof.
  induction d as [|[k1 v1] d IH]; intros Hd; cbn [dict_set map fst] in *.
  - constructor; [intros []|constructor].
  - inversion Hd as [|? ? Hnot Hd']; subst.
    destruct (str_eqb k1 k) eqn:E; cbn [map fst].
    + now constructor.
    + constructor; [|now apply IH].
      rewrite dict_set_keys. intros [Hin|Heq]; [now apply Hnot|].
      subst. now rewrite str_eqb_refl in E.
Qed.

Lemma dict_update_nodup (items : list (str * cell)) :
  forall d, NoDup (map fst d) -> NoDup (map fst (dict_update d items)).
Proof.
  unfold dict_update.
  induction items as [|kv items IH]; intros d Hd; [exact Hd|].
  cbn [fold_left]. apply IH. now apply dict_set_nodup.
Qed.

Lemma dict_get_absent (d : dict) (k : str) :
  ~ In k (map fst d) -> dict_get d k = None.
Proof.
  induction d as [|[k1 v1] d IH]; intros Hk; [reflexivity|].
  cbn [dict_get]. cbn [map fst In] in Hk.
  rewrite str_eqb_neq by (intros ->; apply Hk; now left).
  apply IH. intros H. apply Hk. now right.
Qed.

(** In a dict, where no key stands twice, the last item of a key is the one
    [get] finds. *)
Lemma fold_items_get (d : dict) (k : str) :
  NoDup (map fst d) ->
  forall init,
    fold_left (fun acc kv => if str_eqb (fst kv) k then Some (snd kv) else acc)
              d init =
    match dict_get d k with
    | Some v => Some v
    | None => init
    end.
Proof.
  induction d as [|[k1 v1] d IH]; intros Hd init; [reflexivity|].
  cbn [map fst] in Hd. inversion Hd as [|? ? Hnot Hd']; subst.
  cbn [fold_left fst snd dict_get]. rewrite (IH Hd').
  destruct (str_eqb k1 k) eqn:E; [|reflexivity].
  apply str_eqb_eq in E. subst. now rewrite (dict_get_absent d k Hnot).
Qed.

Lemma dict_get_merge (base : dict) (items : list (str * cell)) (k : str) :
  dict_get (dict_update base (dict_update [] items)) k =
  match dict_get (dict_update [] items) k with
  | Some v => Some v
  | None => dict_get base k
  end.
Proof.
  rewrite (dict_get_update (dict_update [] items) k base).
  apply fold_items_get, dict_update_nodup. constructor.
Qed.

Lemma fold_items_other {A} (key : A -> str) (value : A -> cell) (k : str)
    (l : list A) :
  (forall a, In a l -> key a <> k) ->
  forall init,
    fold_left (fun acc kv => if str_eqb (fst kv) k then Some (snd kv) else acc)
              (map (fun a => (key a, value a)) l) init = init.
Proof.
  induction l as [|a l IH]; intros Hl init; [reflexivity|].
  cbn [map fold_left fst snd].
  rewrite str_eqb_neq by (apply Hl; now left).
  apply IH. intros b Hb. apply Hl. now right.
Qed.

Lemma fold_items_found {A} (key : A -> str) (value : A -> cell) (l : list A)
    (a : A) :
  (forall x y, key x = key y -> x = y) ->
  In a l ->
  forall init,
    fold_left (fun acc kv => if str_eqb (fst kv) (key a) then Some (snd kv)
                             else acc)
              (map (fun x => (key x, value x)) l) init = Some (value a).
Proof.
  intros Hinj. induction l as [|x l IH] using rev_ind; intros Hin init;
    [destruct Hin|].
  rewrite map_app, fold_left_app. cbn [map fold_left fst snd].
  destruct (str_eqb (key x) (key a)) eqn:E.
  - apply str_eqb_eq, Hinj in E. now subst.
  - apply in_app_or in Hin. destruct Hin as [Hin|[->|[]]].
    + now apply IH.
    + now rewrite str_eqb_refl in E.
Qed.

Lemma density_key_other (kw : str) :
  kw ++ lit " Density" <> lit "URL" /\
  kw ++ lit " Density" <> lit "Word Count" /\
  kw ++ lit " Density" <> lit "Sentence Count".
Proof.
  repeat split; intros H; apply (f_equal (@rev char)) in H;
    rewrite rev_app_distr in H; vm_compute in H; discriminate H.
Qed.

Section BulkProofs.
Context {U : Unicode}.

Lemma density_column_row (content : str) (word_count : nat)
    (keywords_list : list str) (kw : str) :
  In kw keywords_list ->
  density_column (map (row_of content word_count) keywords_list) kw =
  Density (row_of content word_count kw).
Proof.
  unfold density_column.
  induction keywords_list as [|k l IH]; intros Hin; [destruct Hin|].
  cbn [map List.find]. cbn [row_of Keyword] in *.
  destruct (str_eqb k kw) eqn:E.
  - apply str_eqb_eq in E. now subst.
  - destruct Hin as [->|Hin]; [now rewrite str_eqb_refl in E|].
    now apply IH.
Qed.

Lemma bulk_result_fixed (url : str) (word_count sentence_count : nat)
    (analysis : list KeywordRecord) (keywords_list : list str) :
  dict_get (bulk_result url word_count sentence_count analysis keywords_list)
           (lit "URL") = Some (CStr url) /\
  dict_get (bulk_result url word_count sentence_count analysis keywords_list)
           (lit "Word Count") = Some (CInt word_count) /\
  dict_get (bulk_result url word_count sentence_count analysis keywords_list)
           (lit "Sentence Count") = Some (CInt sentence_count).
Proof.
  unfold bulk_result. rewrite !dict_get_merge, !dict_get_update.
  rewrite !fold_items_other; [repeat split| | |];
    intros kw _; apply density_key_other.
Qed.

Lemma bulk_result_density (url : str) (word_count sentence_count : nat)
    (analysis : list KeywordRecord) (keywords_list : list str) (kw : str) :
  In kw keywords_list ->
  dict_get (bulk_result url word_count sentence_count analysis keywords_list)
           (kw ++ lit " Density") =
  Some (CStr (density_column analysis kw)).
Proof.
  intros Hin. unfold bulk_result. rewrite dict_get_merge, dict_get_update.
  rewrite (fold_items_found (fun k => k ++ lit " Density")
             (fun k => CStr (density_column analysis k)) keywords_list kw);
    [reflexivity| |exact Hin].
  intros x y. apply app_inv_tail.
Qed.
End BulkProofs.

(** In the row of a URL the cells [URL], [Word Count] and [Sentence Count]
    hold the URL and the counts, and for every keyword of the list the cell
    [<keyword> Density] holds the density [analyze_content] shows for that
    keyword: the keywords cannot overwrite the three fixed cells, and the
    default ["0.00%"] of the lookup is never needed. *)
Theorem bulk_row_cells :
  forall (U : Unicode) (url content : str) (keywords_list : list str)
         (kw : str),
    content <> [] ->
    In kw keywords_list ->
    exists word_count sentence_count analysis d,
      analyze_content content keywords_list =
        Returns (word_count, sentence_count, analysis) /\
      density (keyword_instances content kw) word_count = Returns d /\
      dict_get (bulk_result url word_count sentence_count analysis
                  keywords_list) (lit "URL") = Some (CStr url) /\
      dict_get (bulk_result url word_count sentence_count analysis
                  keywords_list) (lit "Word Count") = Some (CInt word_count) /\
      dict_get (bulk_result url word_count sentence_count analysis
                  keywords_list) (lit "Sentence Count") =
        Some (CInt sentence_count) /\
      dict_get (bulk_result url word_count sentence_count analysis
                  keywords_list) (kw ++ lit " Density") =
        Some (CStr (format_2f d ++ lit "%")).
Proof.
  intros U url content keywords_list kw Hne Hin.
  exists (length (words content)), (length (sentences content)),
         (map (row_of content (length (words content))) keywords_list),
         (density_computed (keyword_instances content kw)
                           (length (words content))).
  split; [now apply analyze_content_rows|].
  split; [apply density_total|].
  destruct (bulk_result_fixed url (length (words content))
              (length (sentences content))
              (map (row_of content (length (words content))) keywords_list)
              keywords_list) as (Hurl & Hwc & Hsc).
  repeat split; try assumption.
  rewrite bulk_result_density by exact Hin.
  now rewrite density_column_row by exact Hin.
Qed.

Lemma bulk_row_cells_witness :
  exists word_count sentence_count analysis d,
    @analyze_content basic_latin (lit "SEO tips.")
      [lit "seo"; lit "URL"; lit "seo"] =
      Returns (word_count, sentence_count, analysis) /\
    density (@keyword_instances basic_latin (lit "SEO tips.") (lit "seo"))
      word_count = Returns d /\
    dict_get (bulk_result (lit "https://example.com/blog") word_count
                sentence_count analysis [lit "seo"; lit "URL"; lit "seo"])
             (lit "URL") = Some (CStr (lit "https://example.com/blog")) /\
    dict_get (bulk_result (lit "https://example.com/blog") word_count
                sentence_count analysis [lit "seo"; lit "URL"; lit "seo"])
             (lit "Word Count") = Some (CInt word_count) /\
    dict_get (bulk_result (lit "https://example.com/blog") word_count
                sentence_count analysis [lit "seo"; lit "URL"; lit "seo"])
             (lit "Sentence Count") = Some (CInt sentence_count) /\
    dict_get (bulk_result (lit "https://example.com/blog") word_count
                sentence_count analysis [lit "seo"; lit "URL"; lit "seo"])
             (lit "seo" ++ lit " Density") =
      Some (CStr (format_2f d ++ lit "%")).
Proof.
  apply (bulk_row_cells basic_latin (lit "https://example.com/blog")
           (lit "SEO tips.") [lit "seo"; lit "URL"; lit "seo"] (lit "seo"));
    [discriminate|now left].
Defined.

Lemma progress_values_errors (errors : list str) :
  progress_values (map st_error errors) = [].
Proof.
  induction errors as [|e l IH]; [reflexivity|exact IH].
Qed.

Lemma progress_values_cons (p : Q) (l : list ui) :
  progress_values (st_progress p :: l) = p :: progress_values l.
Proof. reflexivity. Qed.

Lemma progress_values_app (a b : list ui) :
  progress_values (a ++ b) = progress_values a ++ progress_values b.
Proof. apply flat_map_app. Qed.

(** *** The double of a quotient *)

(** Rounding does not pass an integer above. *)
Lemma round_half_even_le (q : Q) (k : Z) :
  (q <= inject_Z k)%Q -> (round_half_even q <= k)%Z.
Proof.
  destruct q as [n d]. unfold Qle, round_half_even. cbn [Qnum Qden inject_Z].
  rewrite Z.mul_1_r. intros H.
  assert (Hd : (0 < Zpos d)%Z) by reflexivity.
  assert (Hfl : (n / Zpos d <= k)%Z).
  { apply Z.div_le_upper_bound; [exact Hd|lia]. }
  destruct (Z.eq_dec (n / Zpos d) k) as [Heq|Hne].
  - assert (Hmod : (n mod Zpos d = 0)%Z).
    { pose proof (Z.div_mod n (Zpos d) ltac:(lia)) as Hdm.
      pose proof (Z.mod_pos_bound n (Zpos d) Hd) as Hb.
      rewrite Heq in Hdm. clear Heq Hfl.
      set (r := (n mod Zpos d)%Z) in *. clearbody r. lia. }
    rewrite Hmod. exact Hfl.
  - set (fl := (n / Zpos d)%Z) in *. clearbody fl.
    destruct (2 * (n mod Zpos d) ?= Zpos d)%Z; [destruct (Z.even fl)| |]; lia.
Qed.

Lemma round_half_even_nonneg (q : Q) :
  (0 <= Qnum q)%Z -> (0 <= round_half_even q)%Z.
Proof.
  destruct q as [n d]. unfold round_half_even. cbn [Qnum Qden]. intros H.
  assert (Hfl : (0 <= n / Zpos d)%Z) by (apply Z.div_pos; lia).
  set (fl := (n / Zpos d)%Z) in *. clearbody fl.
  destruct (2 * (n mod Zpos d) ?= Zpos d)%Z; [destruct (Z.even fl)| |]; lia.
Qed.

Lemma floor_log2_le_0 (n d : Z) :
  (0 < n)%Z -> (n <= d)%Z -> (floor_log2 n d <= 0)%Z.
Proof.
  intros Hn Hd. unfold floor_log2.
  pose proof (Z.log2_le_mono n d Hd) as Hl.
  destruct (0 <=? Z.log2 n - Z.log2 d)%Z eqn:E.
  - apply Z.leb_le in E.
    destruct (n <? d * 2 ^ (Z.log2 n - Z.log2 d))%Z; lia.
  - apply Z.leb_gt in E.
    destruct (n * 2 ^ (- (Z.log2 n - Z.log2 d)) <? d)%Z; lia.
Qed.

Lemma scale2_up (q : Q) (e : Z) :
  (0 <= e)%Z -> scale2 q e = (Qnum q * 2 ^ e # Qden q).
Proof.
  intros He. unfold scale2.
  now replace (0 <=? e)%Z with true by (symmetry; apply Z.leb_le; lia).
Qed.

Lemma scale2_down (q : Q) (e : Z) :
  (e < 0)%Z -> scale2 q e = (Qnum q # Qden q * Z.to_pos (2 ^ (- e))).
Proof.
  intros He. unfold scale2.
  now replace (0 <=? e)%Z with false by (symmetry; apply Z.leb_gt; lia).
Qed.

(** The double of a quotient between 0 and 1 lies between 0 and 1. *)
Lemma binary64_unit (n : Z) (d : positive) :
  (0 <= n)%Z -> (n <= Zpos d)%Z ->
  (0 <= binary64 (n # d))%Q /\ (binary64 (n # d) <= 1)%Q.
Proof.
  intros Hn Hd. unfold binary64. cbn [Qnum Qden].
  destruct (n =? 0)%Z eqn:E; [split; discriminate|].
  apply Z.eqb_neq in E.
  assert (Hpos : (0 < n)%Z) by lia.
  rewrite (Z.abs_eq n) by lia. rewrite (Z.sgn_pos n) by lia.
  pose proof (floor_log2_le_0 n (Zpos d) Hpos Hd) as Hl.
  set (e := (floor_log2 n (Zpos d) - 52)%Z) in *.
  assert (He : (e < 0)%Z) by lia.
  rewrite (scale2_up (n # d) (- e)) by lia. cbn [Qnum Qden].
  set (m := round_half_even (n * 2 ^ (- e) # d)).
  assert (Hpow : (0 < 2 ^ (- e))%Z) by (apply Z.pow_pos_nonneg; lia).
  assert (Hm0 : (0 <= m)%Z).
  { apply round_half_even_nonneg. cbn [Qnum]. nia. }
  assert (Hm1 : (m <= 2 ^ (- e))%Z).
  { apply round_half_even_le. unfold Qle. cbn [Qnum Qden inject_Z]. nia. }
  rewrite (scale2_down _ e He). cbn [Qnum Qden inject_Z].
  unfold Qle. cbn [Qnum Qden].
  rewrite Pos.mul_1_l, Z2Pos.id by exact Hpow.
  split; lia.
Qed.

(** The double of [n / n] is 1. *)
Lemma binary64_one (d : positive) : (binary64 (Zpos d # d) == 1)%Q.
Proof.
  assert (Hl : floor_log2 (Zpos d) (Zpos d) = 0%Z).
  { unfold floor_log2. rewrite Z.sub_diag. cbn [Z.leb Z.compare].
    change (2 ^ 0)%Z with 1%Z.
    rewrite Z.mul_1_r, Z.ltb_irrefl. reflexivity. }
  assert (Hm : round_half_even (Zpos d * 2 ^ 52 # d) = (2 ^ 52)%Z).
  { unfold round_half_even. cbn [Qnum Qden].
    rewrite (Z.mul_comm (Zpos d)), Z.mod_mul, Z.div_mul by discriminate.
    reflexivity. }
  unfold binary64. cbn [Qnum Qden Z.eqb Z.abs Z.sgn]. rewrite Hl.
  change (- (0 - 52))%Z with 52%Z. change (0 - 52)%Z with (-52)%Z.
  rewrite (scale2_up (Zpos d # d) 52) by discriminate.
  cbn [Qnum Qden]. rewrite Hm. reflexivity.
Qed.

(** [1 / 3] as a double: 6004799503160661 / 2^54. *)
Example binary64_third :
  binary64 (1 # 3) = (6004799503160661 # 18014398509481984)%Q.
Proof. vm_compute. reflexivity. Qed.

Section BulkLoopProofs.
Context {U : Unicode}.
Variable render : str -> outcome soup.

Lemma get_clean_content_total (url : str) :
  exists errors,
    get_clean_content render url = (Returns (content_of render url), errors).
Proof.
  unfold content_of, get_clean_content.
  destruct (render url) as [page|e]; cbn [bind fst]; eauto.
Qed.

Lemma call_get_clean_content_total (url : str) :
  exists errors,
    call_get_clean_content render url =
    (map st_error errors, Returns (content_of render url)).
Proof.
  destruct (get_clean_content_total url) as [errors H].
  exists errors. unfold call_get_clean_content. now rewrite H.
Qed.

(** The loop over the URLs: it ends without an exception, it has appended
    the rows of the URLs with content, and step [i] has set the progress bar
    to the double of [(i + 1) / total]. *)
Lemma for_urls_run (total : nat) (keywords_list : list str) :
  total <> 0 ->
  forall urls i results,
    exists shown,
      for_urls render total keywords_list i urls results =
        (shown, Returns (results ++ bulk_rows render keywords_list urls)) /\
      progress_values shown =
        map (fun j => binary64 (Z.of_nat (j + 1) # Pos.of_nat total))
            (seq i (length urls)).
Proof.
  intros Htotal. induction urls as [|url rest IH]; intros i results.
  - exists []. cbn. now rewrite app_nil_r.
  - destruct (call_get_clean_content_total url) as [errors Hcall].
    destruct total as [|t]; [contradiction|].
    cbn [for_urls bulk_rows flat_map]. rewrite Hcall. cbn [sbind].
    fold (bulk_rows render keywords_list rest).
    destruct (content_of render url) as [|c content'] eqn:E.
    + cbn [nonempty sret sbind lift truediv emit app].
      destruct (IH (S i) results) as (shown & Hrun & Hprogress).
      rewrite Hrun. eexists. split; [reflexivity|].
      rewrite progress_values_app, progress_values_errors.
      rewrite progress_values_cons, Hprogress. reflexivity.
    + cbn [nonempty].
      rewrite (analyze_content_rows (c :: content')) by discriminate.
      cbn [sret sbind lift truediv emit app].
      destruct (IH (S i)
                  (results ++
                   [bulk_result url (length (words (c :: content')))
                      (length (sentences (c :: content')))
                      (map (row_of (c :: content')
                              (length (words (c :: content'))))
                           keywords_list) keywords_list]))
        as (shown & Hrun & Hprogress).
      rewrite Hrun. eexists. split; [now rewrite <- app_assoc|].
      rewrite progress_values_app, progress_values_errors.
      rewrite progress_values_cons, Hprogress. reflexivity.
Qed.

Lemma bulk_body_run (f : upload) (urls : list str) (bulk_keywords : str) :
  read_urls f = Returns (Some urls) ->
  exists loop_shown,
    bulk_body render f bulk_keywords =
      (st_progress 0 :: loop_shown ++
       bulk_report
         (bulk_rows render
            (map strip (split_from (lit ",") bulk_keywords [] 0)) urls),
       Returns tt) /\
    progress_values loop_shown =
      map (fun j => binary64 (Z.of_nat (j + 1) # Pos.of_nat (length urls)))
          (seq 0 (length urls)).
Proof.
  intros Hread. unfold bulk_body. rewrite Hread.
  rewrite keywords_list_of_split. cbn [lift sbind emit app lookup_urls].
  destruct urls as [|url rest].
  - exists []. split; reflexivity.
  - destruct (for_urls_run (length (url :: rest))
                (map strip (split_from (lit ",") bulk_keywords [] 0))
                ltac:(discriminate) (url :: rest) 0 [])
      as (shown & Hrun & Hprogress).
    exists shown. split; [|exact Hprogress].
    rewrite Hrun. cbn [app].
    destruct (bulk_rows render
                (map strip (split_from (lit ",") bulk_keywords [] 0))
                (url :: rest)); reflexivity.
Qed.

Lemma bulk_tab_body (f : upload) (bulk_keywords : str) :
  bulk_keywords <> [] ->
  bulk_tab render (Some f) bulk_keywords true =
  try_except (bulk_body render f bulk_keywords)
    (fun e => emit [st_error (lit "Error processing bulk analysis: "
                              ++ exn_message e)]).
Proof.
  intros Hkw. destruct bulk_keywords as [|b k']; [contradiction|].
  reflexivity.
Qed.

Lemma bulk_tab_run (f : upload) (urls : list str) (bulk_keywords : str) :
  bulk_keywords <> [] ->
  read_urls f = Returns (Some urls) ->
  exists loop_shown,
    bulk_tab render (Some f) bulk_keywords true =
      (st_progress 0 :: loop_shown ++
       bulk_report
         (bulk_rows render
            (map strip (split_from (lit ",") bulk_keywords [] 0)) urls),
       Returns tt) /\
    progress_values loop_shown =
      map (fun j => binary64 (Z.of_nat (j + 1) # Pos.of_nat (length urls)))
          (seq 0 (length urls)).
Proof.
  intros Hkw Hread.
  destruct (bulk_body_run f urls bulk_keywords Hread)
    as (loop_shown & Hrun & Hprogress).
  exists loop_shown. split; [|exact Hprogress].
  now rewrite (bulk_tab_body f bulk_keywords Hkw), Hrun.
Qed.



Lemma bulk_rows_urls (keywords_list urls : list str) :
  map (fun row => dict_get row (lit "URL"))
      (bulk_rows render keywords_list urls) =
  map (fun url => Some (CStr url))
      (filter (fun url => nonempty (content_of render url)) urls).
Proof.
  induction urls as [|url rest IH]; [reflexivity|].
  cbn [bulk_rows flat_map filter].
  fold (bulk_rows render keywords_list rest).
  destruct (nonempty (content_of render url)); cbn [app map]; [|exact IH].
  rewrite IH. f_equal. apply bulk_result_fixed.
Qed.
End BulkLoopProofs.

(** The bulk table has one row for each URL from which text was extracted,
    in the order of the file; a URL that cannot be fetched or gives no text
    is left out and does not stop the others.  Without any row the tab shows
    the warning and no table. *)
Theorem bulk_tab_report :
  forall (U : Unicode) (render : str -> outcome soup) (f : upload)
         (urls : list str) (bulk_keywords : str),
    bulk_keywords <> [] ->
    read_urls f = Returns (Some urls) ->
    exists keywords_list loop_shown,
      keywords_list_of bulk_keywords = Returns keywords_list /\
      bulk_tab render (Some f) bulk_keywords true =
        (st_progress 0 :: loop_shown ++
         bulk_report (bulk_rows render keywords_list urls),
         Returns tt) /\
      map (fun row => dict_get row (lit "URL"))
          (bulk_rows render keywords_list urls) =
        map (fun url => Some (CStr url))
            (filter (fun url => nonempty (content_of render url)) urls) /\
      length (bulk_rows render keywords_list urls) <= length urls.
Proof.
  intros U render f urls bulk_keywords Hkw Hread.
  destruct (bulk_tab_run render f urls bulk_keywords Hkw Hread)
    as (loop_shown & Hrun & _).
  exists (map strip (split_from (lit ",") bulk_keywords [] 0)), loop_shown.
  split; [apply keywords_list_of_split|].
  split; [exact Hrun|].
  split; [apply bulk_rows_urls|].
  rewrite <- (length_map (fun row => dict_get row (lit "URL"))).
  rewrite bulk_rows_urls, length_map. apply filter_length_le.
Qed.

Lemma bulk_tab_report_witness :
  exists keywords_list loop_shown,
    @keywords_list_of basic_latin (lit "seo") = Returns keywords_list /\
    @bulk_tab basic_latin sample_render
      (Some (sample_upload (lit "urls.csv")
               [lit "https://example.org";
                lit "https://example.com/blog";
                lit "https://example.com/empty"]))
      (lit "seo") true =
      (st_progress 0 :: loop_shown ++
       bulk_report
         (@bulk_rows basic_latin sample_render keywords_list
            [lit "https://example.org"; lit "https://example.com/blog";
             lit "https://example.com/empty"]),
       Returns tt) /\
    map (fun row => dict_get row (lit "URL"))
        (@bulk_rows basic_latin sample_render keywords_list
           [lit "https://example.org"; lit "https://example.com/blog";
            lit "https://example.com/empty"]) =
      map (fun url => Some (CStr url))
          (filter (fun url => nonempty (@content_of basic_latin sample_render url))
             [lit "https://example.org"; lit "https://example.com/blog";
              lit "https://example.com/empty"]) /\
    length (@bulk_rows basic_latin sample_render keywords_list
              [lit "https://example.org"; lit "https://example.com/blog";
               lit "https://example.com/empty"]) <= 3.
Proof.
  apply (bulk_tab_report basic_latin sample_render
           (sample_upload (lit "urls.csv")
              [lit "https://example.org"; lit "https://example.com/blog";
               lit "https://example.com/empty"])
           [lit "https://example.org"; lit "https://example.com/blog";
            lit "https://example.com/empty"] (lit "seo"));
    [discriminate|reflexivity].
Defined.

(** The progress bar is set to 0 before the loop and then, at step [i] of the
    loop, to the double of [(i + 1) / len(urls)], and to nothing else: these
    are [len(urls) + 1] values, each between 0 and 1, the last one 1 when
    there is a URL.  No division of the loop is by zero: each returns its
    quotient. *)
Theorem bulk_progress :
  forall (U : Unicode) (render : str -> outcome soup) (f : upload)
         (urls : list str) (bulk_keywords : str),
    bulk_keywords <> [] ->
    read_urls f = Returns (Some urls) ->
    exists shown,
      bulk_tab render (Some f) bulk_keywords true = (shown, Returns tt) /\
      progress_values shown =
        0%Q :: map (fun i => binary64 (Z.of_nat (i + 1) #
                                       Pos.of_nat (length urls)))
                   (seq 0 (length urls)) /\
      (forall i, i < length urls ->
         truediv (i + 1) (length urls) =
         Returns (Z.of_nat (i + 1) # Pos.of_nat (length urls))) /\
      length (progress_values shown) = S (length urls) /\
      Forall (fun p => (0 <= p)%Q /\ (p <= 1)%Q) (progress_values shown) /\
      (urls <> [] -> (last (progress_values shown) 0 == 1)%Q).
Proof.
  intros U render f urls bulk_keywords Hkw Hread.
  destruct (bulk_tab_run render f urls bulk_keywords Hkw Hread)
    as (loop_shown & Hrun & Hprogress).
  eexists. split; [exact Hrun|].
  assert (Hreport : forall rows, progress_values (bulk_report rows) = []).
  { intros [|row rows]; reflexivity. }
  rewrite progress_values_cons, progress_values_app, Hreport, app_nil_r.
  rewrite Hprogress.
  split; [reflexivity|].
  split.
  { intros i Hi. destruct (length urls); [inversion Hi|reflexivity]. }
  split; [cbn [length]; now rewrite length_map, length_seq|].
  split.
  - constructor; [split; discriminate|].
    apply Forall_forall. intros p Hp. apply in_map_iff in Hp.
    destruct Hp as (j & <- & Hj). apply in_seq in Hj.
    destruct urls as [|url rest]; [simpl in Hj; lia|].
    cbn [length] in *.
    apply binary64_unit; rewrite ?Zpos_of_nat_succ; lia.
  - intros Hne. destruct urls as [|url rest]; [contradiction|].
    cbn [length]. rewrite seq_S, map_app. cbn [map].
    rewrite app_comm_cons, last_last.
    cbn [Nat.add]. rewrite Nat.add_1_r, <- Zpos_of_nat_succ.
    apply binary64_one.
Qed.

Lemma bulk_progress_witness :
  exists shown,
    @bulk_tab basic_latin sample_render
      (Some (sample_upload (lit "urls.csv")
               [lit "https://example.org"; lit "https://example.com/blog"]))
      (lit "seo") true = (shown, Returns tt) /\
    progress_values shown =
      0%Q :: map (fun i => binary64 (Z.of_nat (i + 1) # Pos.of_nat 2))
                 (seq 0 2) /\
    (forall i, i < 2 ->
       truediv (i + 1) 2 = Returns (Z.of_nat (i + 1) # Pos.of_nat 2)) /\
    length (progress_values shown) = 3 /\
    Forall (fun p => (0 <= p)%Q /\ (p <= 1)%Q) (progress_values shown) /\
    ([lit "https://example.org"; lit "https://example.com/blog"] <> [] ->
     (last (progress_values shown) 0 == 1)%Q).
Proof.
  apply (bulk_progress basic_latin sample_render
           (sample_upload (lit "urls.csv")
              [lit "https://example.org"; lit "https://example.com/blog"])
           [lit "https://example.org"; lit "https://example.com/blog"]
           (lit "seo")); [discriminate|reflexivity].
Defined.


(** A file named [URLS.TXT]: none of the three tests on the name holds. *)
Example bulk_tab_unbound_example :
  @bulk_tab basic_latin sample_render
    (Some (sample_upload (lit "URLS.TXT") [lit "https://example.com/blog"]))
    (lit "seo") true =
  ([st_progress 0;
    st_error (lit "Error processing bulk analysis: name 'urls' is not defined")],
   Returns tt).
Proof. reflexivity. Qed.

(** ** The extracted text is stripped *)

Section TrimmedProofs.
Context {U : Unicode}.

Lemma starts_clean_app (a b : str) : starts_clean a -> starts_clean (a ++ b).
Proof.
  intros (c & t & -> & Hc). now exists c, (t ++ b).
Qed.

Lemma join_starts_clean (sep : str) (l : list str) :
  l <> [] ->
  Forall (fun p => starts_clean p /\ starts_clean (rev p)) l ->
  starts_clean (join sep l) /\ starts_clean (rev (join sep l)).
Proof.
  induction l as [|p l IH]; intros Hne Hl; [contradiction|].
  inversion Hl as [|? ? [Hp Hrev] Hl']; subst.
  destruct l as [|q l]; [now split|].
  rewrite join_cons by discriminate.
  destruct (IH ltac:(discriminate) Hl') as [_ Hlast].
  split; [now apply starts_clean_app|].
  rewrite !rev_app_distr, <- app_assoc. now apply starts_clean_app.
Qed.

Lemma stripped_pieces_clean (l : list str) :
  Forall (fun p => starts_clean p /\ starts_clean (rev p))
         (filter nonempty (map strip l)).
Proof.
  apply Forall_forall. intros p Hp. apply filter_In in Hp.
  destruct Hp as [Hin Hne]. apply in_map_iff in Hin.
  destruct Hin as (x & <- & _).
  destruct (strip_trimmed x) as [Hnil|H]; [|exact H].
  rewrite Hnil in Hne. discriminate Hne.
Qed.

Lemma visible_text_trimmed (root : node) : trimmed (visible_text root).
Proof.
  unfold visible_text. rewrite <- map_map.
  set (l := map snd (filter _ (strings_of root))).
  destruct (filter nonempty (map strip l)) as [|p ps] eqn:E; [now left|].
  right. rewrite <- E. apply join_starts_clean.
  - rewrite E. discriminate.
  - apply stripped_pieces_clean.
Qed.
End TrimmedProofs.

(** The text extracted from a page does not start and does not end with a
    character that [strip] removes: stripping it changes nothing. *)
Theorem extract_is_stripped :
  forall (U : Unicode) (page : soup),
    strip (extract page) = extract page.
Proof.
  intros U page. apply strip_of_trimmed. unfold extract.
  destruct (main_content (remove_unwanted page)) as [root|].
  - apply visible_text_trimmed.
  - now left.
Qed.

(** ** The words are the runs with a word character *)

Section WordRunProofs.
Context {U : Unicode}.

Lemma not_in_class_not_word (c : char) :
  in_word_class c = false -> isword c = false.
Proof.
  unfold in_word_class. intros H.
  apply orb_false_iff in H. destruct H as [H _].
  apply orb_false_iff in H. now destruct H.
Qed.

Lemma word_is_in_class (c : char) : isword c = true -> in_word_class c = true.
Proof. unfold in_word_class. now intros ->. Qed.

(** What the backtracking of [[\w'-]*\b] settles on: the end of the last word
    character of the run, and without a word character in the run the empty
    match when the character before is a word character. *)
Lemma word_tail_run (s : str) :
  forall prev,
    word_tail prev s =
    if run_has_word s then Some (last_word_end s)
    else if isword prev then Some 0 else None.
Proof.
  induction s as [|c s IH]; intros prev.
  - cbn [word_tail run_has_word]. unfold boundary. cbn [isword_at].
    rewrite xorb_false_r. reflexivity.
  - cbn [word_tail run_has_word last_word_end].
    destruct (in_word_class c) eqn:Hclass; cbn [andb].
    + rewrite IH. destruct (run_has_word s); [now rewrite orb_true_r|].
      rewrite orb_false_r. destruct (isword c) eqn:Hc; [reflexivity|].
      unfold boundary. cbn [isword_at]. now rewrite Hc, xorb_false_r.
    + unfold boundary. cbn [isword_at].
      now rewrite (not_in_class_not_word c Hclass), xorb_false_r.
Qed.

Lemma last_word_end_run (s : str) :
  forallb in_word_class (firstn (last_word_end s) s) = true /\
  run_has_word (skipn (last_word_end s) s) = false.
Proof.
  induction s as [|c s [IH1 IH2]]; [now split|].
  cbn [last_word_end]. destruct (in_word_class c) eqn:Hclass.
  - destruct (run_has_word s) eqn:Hrun.
    + cbn [firstn skipn forallb]. now rewrite Hclass, IH1.
    + destruct (isword c) eqn:Hc.
      * cbn [firstn skipn forallb]. now rewrite Hclass.
      * cbn [firstn skipn forallb run_has_word]. now rewrite Hclass, Hc, Hrun.
  - cbn [firstn skipn forallb run_has_word]. now rewrite Hclass.
Qed.

(** The scan against the count of runs: before a run has had a word
    character, and while and after the word of a run is skipped. *)
Lemma scan_word_runs (s : str) :
  (forall prev,
     isword_at prev = false ->
     length (scan match_word prev s 0) = word_runs false s) /\
  (forall prev k,
     forallb in_word_class (firstn k s) = true ->
     run_has_word (skipn k s) = false ->
     length (scan match_word prev s k) = word_runs true s).
Proof.
  induction s as [|c s [IH1 IH3]]; [split; intros; now destruct k || reflexivity|].
  split.
  - intros prev Hprev. cbn [scan match_word word_runs].
    unfold boundary. rewrite Hprev. cbn [isword_at xorb].
    destruct (isword c) eqn:Hc.
    + rewrite (word_is_in_class c Hc). cbn [andb negb orb].
      rewrite word_tail_run, Hc.
      destruct (run_has_word s) eqn:Hrun; cbn [length].
      * destruct (last_word_end_run s) as [H1 H2].
        now rewrite (IH3 (Some c) (last_word_end s) H1 H2).
      * now rewrite (IH3 (Some c) 0 eq_refl Hrun).
    + cbn [andb orb]. rewrite (IH1 (Some c) Hc).
      destruct (in_word_class c); reflexivity.
  - intros prev k Hfirst Hrest. destruct k as [|k].
    + cbn [skipn run_has_word] in Hrest. cbn [scan match_word word_runs].
      destruct (in_word_class c) eqn:Hclass.
      * cbn [andb] in Hrest. apply orb_false_iff in Hrest.
        destruct Hrest as [Hc Hrun].
        rewrite word_tail_run, Hrun, Hc. cbn [andb negb orb Nat.add].
        rewrite andb_true_r.
        destruct (boundary prev (Some c)); now rewrite (IH3 (Some c) 0 eq_refl Hrun).
      * rewrite andb_false_r.
        apply IH1. cbn [isword_at]. now apply not_in_class_not_word.
    + cbn [firstn forallb] in Hfirst. apply andb_true_iff in Hfirst.
      destruct Hfirst as [Hclass Hfirst]. cbn [skipn] in Hrest.
      cbn [scan word_runs]. rewrite Hclass. cbn [negb orb].
      rewrite andb_false_r. cbn [Nat.add].
      apply (IH3 (Some c) k Hfirst Hrest).
Qed.
End WordRunProofs.

(** The word count is the number of maximal runs of letters, digits,
    underscores, apostrophes and hyphens that contain at least one character
    other than an apostrophe or hyphen: each such run gives exactly one word,
    from its first to its last word character, and a run of apostrophes and
    hyphens alone gives none. *)
Theorem word_count_runs :
  forall (U : Unicode) (content : str),
    length (words content) = word_runs false content.
Proof.
  intros U content. unfold words, findall.
  now apply scan_word_runs.
Qed.

(** ** The second test on [script] and [style] *)

Lemma tags_subtree (n : node) :
  forall t u, In t (tags n) -> In u (tags t) -> In u (tags n).
Proof.
  induction n as [text|name c st contents IH] using node_forall_ind;
    intros t u Ht Hu; [destruct Ht|].
  cbn [tags] in Ht. destruct Ht as [<-|Ht]; [exact Hu|].
  cbn [tags]. right. apply in_flat_map in Ht. destruct Ht as (x & Hx & Ht).
  apply in_flat_map. exists x. split; [exact Hx|].
  rewrite Forall_forall in IH. now apply (IH x Hx t u).
Qed.

Lemma tags_of_subtree (page : soup) (t u : node) :
  In t (tags_of page) -> In u (tags t) -> In u (tags_of page).
Proof.
  unfold tags_of. intros Ht Hu. apply in_flat_map in Ht.
  destruct Ht as (n & Hn & Ht). apply in_flat_map. exists n.
  split; [exact Hn|]. now apply (tags_subtree n t u).
Qed.

Lemma strings_of_parent (root : node) :
  forall e, In e (strings_of root) ->
            exists t, In t (tags root) /\ name_of t = fst (fst e).
Proof.
  induction root as [text|name c st contents IH] using node_forall_ind;
    intros e He; [destruct He|].
  cbn [strings_of] in He. apply in_flat_map in He.
  destruct He as (child & Hchild & He).
  destruct child as [text|name' c' st' contents'].
  - destruct He as [<-|[]]. exists (Tag name c st contents).
    split; [now left|reflexivity].
  - rewrite Forall_forall in IH. destruct (IH _ Hchild e He) as (t & Ht & Hname).
    exists t. split; [|exact Hname].
    cbn [tags]. right. apply in_flat_map. now exists (Tag name' c' st' contents').
Qed.

Lemma remove_unwanted_names (page : soup) :
  Forall (fun t => str_in (name_of t) unwanted = false)
         (tags_of (remove_unwanted page)).
Proof.
  unfold tags_of, remove_unwanted.
  induction page as [|n page IH]; [constructor|].
  cbn [flat_map]. rewrite flat_map_app. apply Forall_app.
  split; [apply tags_decompose_unwanted|exact IH].
Qed.

Lemma unwanted_script_style (name : str) :
  str_in name unwanted = false ->
  str_in name [lit "script"; lit "style"] = false.
Proof.
  intros H. destruct (str_in name [lit "script"; lit "style"]) eqn:E;
    [|reflexivity].
  unfold str_in in E. cbn [existsb] in E.
  rewrite orb_false_r in E. apply orb_true_iff in E.
  destruct E as [E|E]; apply str_eqb_eq in E; subst name; discriminate H.
Qed.

Lemma main_content_in_tags {U : Unicode} (page : soup) (root : node) :
  main_content page = Some root -> In root (tags_of page).
Proof.
  rewrite main_content_root. unfold content_root. intros H.
  destruct (List.find (has_name "main") (tags_of page)) eqn:E1.
  - injection H as <-. now apply find_some in E1.
  - destruct (List.find (has_name "article") (tags_of page)) eqn:E2.
    + injection H as <-. now apply find_some in E2.
    + now apply find_some in H.
Qed.

(** The root the text is read from is a tag that survived the removal, and
    so is every tag below it: no string under the root has a [script] or
    [style] parent, and the test on the name of the parent in the loop never
    drops anything. *)
Theorem no_script_parent_under_root :
  forall (U : Unicode) (page : soup) (root : node),
    main_content (remove_unwanted page) = Some root ->
    In root (tags_of (remove_unwanted page)) /\
    str_in (name_of root) unwanted = false /\
    Forall (fun e => str_in (fst (fst e)) [lit "script"; lit "style"] = false)
           (strings_of root).
Proof.
  intros U page root Hroot.
  pose proof (main_content_in_tags _ _ Hroot) as Hin.
  pose proof (remove_unwanted_names page) as Hnames.
  rewrite Forall_forall in Hnames.
  split; [exact Hin|]. split; [now apply Hnames|].
  apply Forall_forall. intros e He.
  destruct (strings_of_parent root e He) as (t & Ht & <-).
  apply unwanted_script_style, Hnames.
  now apply (tags_of_subtree _ root t).
Qed.

Lemma no_script_parent_under_root_witness :
  In (Tag (lit "article") None None [NavigableString (lit " SEO tips. ")])
     (tags_of (remove_unwanted sample_page)) /\
  str_in (name_of (Tag (lit "article") None None
                     [NavigableString (lit " SEO tips. ")])) unwanted = false /\
  Forall (fun e => str_in (fst (fst e)) [lit "script"; lit "style"] = false)
         (strings_of (Tag (lit "article") None None
                        [NavigableString (lit " SEO tips. ")])).
Proof.
  apply (no_script_parent_under_root basic_latin sample_page
           (Tag (lit "article") None None [NavigableString (lit " SEO tips. ")])).
  reflexivity.
Defined.
